(** * Bank-reconciliation matcher of financial-pdf: model and properties

    The development follows [src/core/formatter.ts] (the reconciliation part:
    [processReconciliation], [matchTransactions], [findExactMatches],
    [findFuzzyMatches], [calculateMatchConfidence],
    [calculateStringSimilarity], [calculateReconciliationSummary]), the
    summary module ([generateReconciliationSummary]) and the declarations of
    the reconciliation types.

    Modelling conventions.
    - A JavaScript [number] that the code computes with is an exact rational
      ([Q]); the rounding of binary64 is not modelled, and amounts,
      thresholds and tolerances are finite.  The one place where the code
      can leave the rationals from finite inputs, the quotient [0 / 0] for
      a zero [dateTolerance], is kept: [number] adds [NaN], and every
      comparison with [NaN] is false as in JavaScript.  Two amounts are
      [===] when they are equal as rationals ([Qeq_bool]).
    - A [Date] is its time value [getTime()], an integer number of
      milliseconds ([Z]).
    - A string is a sequence of code units below 256 ([string] of [ascii]).
    - Arrays are lists; [arr.splice(i, 1)] is [delete i arr], [arr.push(x)]
      is [arr ++ [x]], [arr[i]] is [arr !! i], and reading a property of the
      [undefined] that an out-of-range index yields is the error [None].
    - Part one works on lists of references of an arbitrary type [T] with a
      read-only dereference [tx : T -> Transaction], and passes the three
      working arrays of the matcher from one loop iteration to the next.
      Part two ([Module Imp]) puts arrays and objects into a store and runs
      the same code in a state-and-error monad, so that aliasing and
      mutation are visible; it is proved to compute what part one computes.
    - Two field names are taken: the [matched] flag of a [Transaction] is
      [matched_flag] here ([matched] is the list of pairs of the results),
      and the [number] of an account is [number_]. *)

From Stdlib Require Import QArith Qabs Qminmax Lqa ZArith String Ascii List.
From stdpp Require Import base option list strings gmap.

Local Open Scope Z_scope.
Local Open Scope string_scope.
Local Open Scope list_scope.

(** * Part one: the code over lists *)

(** ** Numbers *)

Inductive number : Type :=
| Num (q : Q)
| NaN.

Definition num_add (a b : number) : number :=
  match a, b with
  | Num x, Num y => Num (x + y)
  | _, _ => NaN
  end.

Definition num_sub (a b : number) : number :=
  match a, b with
  | Num x, Num y => Num (x - y)
  | _, _ => NaN
  end.

Definition num_mul (a b : number) : number :=
  match a, b with
  | Num x, Num y => Num (x * y)
  | _, _ => NaN
  end.

(** Division.  A zero divisor gives [NaN]: that is JavaScript's [0 / 0],
    and the matcher never divides anything but zero by zero (see
    [daysDiff_zero_tolerance] below), so the infinities of a non-zero
    dividend are not needed. *)
Definition num_div (a b : number) : number :=
  match a, b with
  | Num x, Num y => if Qeq_bool y 0 then NaN else Num (x / y)
  | _, _ => NaN
  end.

Definition Qlt_bool (x y : Q) : bool := negb (Qle_bool y x).

(** [a <= b], [a < b], [a >= b], [a > b] of JavaScript: false as soon as one
    side is [NaN]. *)
Definition num_le (a b : number) : bool :=
  match a, b with
  | Num x, Num y => Qle_bool x y
  | _, _ => false
  end.

Definition num_lt (a b : number) : bool :=
  match a, b with
  | Num x, Num y => Qlt_bool x y
  | _, _ => false
  end.

Definition num_ge (a b : number) : bool := num_le b a.
Definition num_gt (a b : number) : bool := num_lt b a.

(** ** Strings *)

(** [String.prototype.toLowerCase] on code units below 256: the letters A-Z
    and the Latin-1 capitals (all of 0xC0-0xDE but the multiplication sign)
    move up by 32. *)
Definition toLowerCaseChar (c : ascii) : ascii :=
  let n := nat_of_ascii c in
  if ((65 <=? n)%nat && (n <=? 90)%nat)
     || ((192 <=? n)%nat && (n <=? 222)%nat && negb (n =? 215)%nat)
  then ascii_of_nat (n + 32)
  else c.

Fixpoint toLowerCase (s : string) : string :=
  match s with
  | EmptyString => EmptyString
  | String c s' => String (toLowerCaseChar c) (toLowerCase s')
  end.

(** The class [\s] on code units below 256: TAB, LF, VT, FF, CR, space and
    the no-break space. *)
Definition isWhitespace (c : ascii) : bool :=
  let n := nat_of_ascii c in
  ((9 <=? n)%nat && (n <=? 13)%nat) || (n =? 32)%nat || (n =? 160)%nat.

(** [str.split(/\s+/)]: the pieces between maximal runs of white space.  A
    leading or trailing run leaves an empty piece, and the empty string
    splits into one empty piece.  [cur] is the piece being read and [inGap]
    tells that the previous code unit was white space. *)
Fixpoint splitLoop (s : string) (cur : string) (inGap : bool) : list string :=
  match s with
  | EmptyString => [cur]
  | String c s' =>
      if isWhitespace c then
        if inGap then splitLoop s' cur true
        else cur :: splitLoop s' EmptyString true
      else splitLoop s' (cur ++ String c EmptyString) false
  end.

Definition split (s : string) : list string := splitLoop s EmptyString false.

(** [s.includes(sub)]: [sub] occurs in [s] at some position. *)
Fixpoint includes (s sub : string) : bool :=
  String.prefix sub s
  || match s with
     | EmptyString => false
     | String _ s' => includes s' sub
     end.

(** JavaScript truthiness of a string and of an optional string. *)
Definition truthy (s : string) : bool := negb (String.eqb s EmptyString).

Definition truthyOpt (o : option string) : bool :=
  match o with
  | Some s => truthy s
  | None => false
  end.

(** [a === b] on optional strings ([undefined === undefined] is true). *)
Definition optStringEq (a b : option string) : bool :=
  match a, b with
  | Some x, Some y => String.eqb x y
  | None, None => true
  | _, _ => false
  end.

(** ** Data model (the reconciliation type declarations) *)

Inductive TransactionType : Type := debit | credit.

Record Transaction : Type := {
  id : string;
  date : Z;
  description : string;
  amount : Q;
  type : TransactionType;
  category : option string;
  reference : option string;
  matched_flag : option bool;
  matchId : option string;
  metadata : option (list (string * string))
}.

Record AccountInfo : Type := {
  name : string;
  number_ : string;
  bank : option string;
  currency : string;
  openingBalance : Q;
  closingBalance : Q
}.

(** The caller's settings: every field may be absent. *)
Record ReconciliationSettings : Type := {
  fuzzyMatching : option bool;
  fuzzyThreshold : option Q;
  matchByAmount : option bool;
  matchByDescription : option bool;
  matchByReference : option bool;
  matchByDate : option bool;
  dateTolerance : option Q;
  autoMatchExact : option bool
}.

(** The settings object that [processReconciliation] builds and hands to
    the matcher: every field present. *)
Record Settings : Type := {
  s_fuzzyMatching : bool;
  s_fuzzyThreshold : Q;
  s_matchByAmount : bool;
  s_matchByDescription : bool;
  s_matchByReference : bool;
  s_matchByDate : bool;
  s_dateTolerance : Q;
  s_autoMatchExact : bool
}.

Inductive MatchMethod : Type := exact | fuzzy | manual.

Record MatchedTransaction (T : Type) : Type := {
  bankTransaction : T;
  bookTransaction : T;
  confidence : number;
  matchMethod : MatchMethod
}.
Arguments bankTransaction {T} _.
Arguments bookTransaction {T} _.
Arguments confidence {T} _.
Arguments matchMethod {T} _.

Inductive Status : Type := balanced | unbalanced.

Record ReconciliationSummary : Type := {
  matchedAmount : Q;
  unmatchedBankAmount : Q;
  unmatchedBookAmount : Q;
  discrepancy : Q;
  status : Status;
  matchPercentage : Q
}.

Record Period : Type := {
  startDate : Z;
  endDate : Z
}.

Record MatchResults (T : Type) : Type := {
  matched : list (MatchedTransaction T);
  unmatchedBank : list T;
  unmatchedBook : list T;
  summary : ReconciliationSummary
}.
Arguments matched {T} _.
Arguments unmatchedBank {T} _.
Arguments unmatchedBook {T} _.
Arguments summary {T} _.

Record ReconciliationData (T : Type) : Type := {
  account : AccountInfo;
  period : Period;
  bankTransactions : list T;
  bookTransactions : list T;
  settings : option ReconciliationSettings;
  matchResults : option (MatchResults T)
}.
Arguments account {T} _.
Arguments period {T} _.
Arguments bankTransactions {T} _.
Arguments bookTransactions {T} _.
Arguments settings {T} _.
Arguments matchResults {T} _.

(** ** Similarity scorer *)

(** The loop of [calculateStringSimilarity] over [words1]. *)
Definition wordMatches (words2 : list string) (word1 : string) : bool :=
  (3 <? String.length word1)%nat
  && existsb (fun word2 => includes word2 word1 || includes word1 word2) words2.

Definition countMatches (words1 words2 : list string) : nat :=
  fold_left
    (fun matchCount word1 =>
       if wordMatches words2 word1 then S matchCount else matchCount)
    words1 0%nat.

(** The third rule: [Math.min(1, matchCount / Math.max(words1.length, 1))]. *)
Definition tokenScore (str1 str2 : string) : Q :=
  let words1 := split str1 in
  let words2 := split str2 in
  Qmin 1 (inject_Z (Z.of_nat (countMatches words1 words2))
          / inject_Z (Z.of_nat (Nat.max (length words1) 1)))%Q.

Definition calculateStringSimilarity (str1 str2 : string) : Q :=
  if String.eqb str1 str2 then 1%Q
  else if includes str1 str2 || includes str2 str1 then 0.8%Q
  else tokenScore str1 str2.

(** ** Confidence model *)

(** [1000 * 60 * 60 * 24], the milliseconds of a day. *)
Definition msPerDay : Q := inject_Z (1000 * 60 * 60 * 24).

Definition daysBetween (bankTx bookTx : Transaction) : Q :=
  let dateDiff := Z.abs (date bankTx - date bookTx) in
  (inject_Z dateDiff / msPerDay)%Q.

(** [calculateMatchConfidence]: the pair [(totalScore, totalWeight)] is
    threaded through the four optional factors in the order of the code. *)
Definition scoreAmount (bankTx bookTx : Transaction) (settings : Settings)
    (acc : number * Q) : number * Q :=
  let '(totalScore, totalWeight) := acc in
  if s_matchByAmount settings then
    let weight := 0.4%Q in
    let totalWeight := (totalWeight + weight)%Q in
    if Qeq_bool (amount bankTx) (amount bookTx)
    then (num_add totalScore (Num weight), totalWeight)
    else (totalScore, totalWeight)
  else acc.

Definition scoreDate (bankTx bookTx : Transaction) (settings : Settings)
    (acc : number * Q) : number * Q :=
  let '(totalScore, totalWeight) := acc in
  if s_matchByDate settings then
    let weight := 0.3%Q in
    let totalWeight := (totalWeight + weight)%Q in
    let daysDiff := daysBetween bankTx bookTx in
    if Qle_bool daysDiff (s_dateTolerance settings) then
      let dateScore :=
        num_sub (Num 1)
                (num_div (Num daysDiff) (Num (s_dateTolerance settings))) in
      (num_add totalScore (num_mul (Num weight) dateScore), totalWeight)
    else (totalScore, totalWeight)
  else acc.

Definition scoreDescription (bankTx bookTx : Transaction) (settings : Settings)
    (acc : number * Q) : number * Q :=
  let '(totalScore, totalWeight) := acc in
  if s_matchByDescription settings
     && truthy (description bankTx) && truthy (description bookTx) then
    let weight := 0.2%Q in
    let totalWeight := (totalWeight + weight)%Q in
    let descriptionSimilarity :=
      calculateStringSimilarity (toLowerCase (description bankTx))
                                (toLowerCase (description bookTx)) in
    (num_add totalScore (num_mul (Num weight) (Num descriptionSimilarity)),
     totalWeight)
  else acc.

Definition scoreReference (bankTx bookTx : Transaction) (settings : Settings)
    (acc : number * Q) : number * Q :=
  let '(totalScore, totalWeight) := acc in
  if s_matchByReference settings
     && truthyOpt (reference bankTx) && truthyOpt (reference bookTx) then
    let weight := 0.1%Q in
    let totalWeight := (totalWeight + weight)%Q in
    let referenceSimilarity :=
      calculateStringSimilarity
        (toLowerCase (default EmptyString (reference bankTx)))
        (toLowerCase (default EmptyString (reference bookTx))) in
    (num_add totalScore (num_mul (Num weight) (Num referenceSimilarity)),
     totalWeight)
  else acc.

Definition calculateMatchConfidence (bankTx bookTx : Transaction)
    (settings : Settings) : number :=
  let acc := (Num 0, 0%Q) in
  let acc := scoreAmount bankTx bookTx settings acc in
  let acc := scoreDate bankTx bookTx settings acc in
  let acc := scoreDescription bankTx bookTx settings acc in
  let acc := scoreReference bankTx bookTx settings acc in
  let '(totalScore, totalWeight) := acc in
  if Qlt_bool 0 totalWeight
  then num_div totalScore (Num totalWeight)
  else Num 0.

(** ** Settings *)

Definition defaultSettings : Settings :=
  {| s_fuzzyMatching := true;
     s_fuzzyThreshold := 0.7%Q;
     s_matchByAmount := true;
     s_matchByDescription := true;
     s_matchByReference := true;
     s_matchByDate := true;
     s_dateTolerance := 3%Q;
     s_autoMatchExact := true |}.

(** The object spread of [processReconciliation]: a field the caller gives
    replaces the default, an absent field (or an absent [settings]) leaves
    it. *)
Definition mergeSettings (o : option ReconciliationSettings) : Settings :=
  match o with
  | None => defaultSettings
  | Some s =>
      {| s_fuzzyMatching := default (s_fuzzyMatching defaultSettings) (fuzzyMatching s);
         s_fuzzyThreshold := default (s_fuzzyThreshold defaultSettings) (fuzzyThreshold s);
         s_matchByAmount := default (s_matchByAmount defaultSettings) (matchByAmount s);
         s_matchByDescription :=
           default (s_matchByDescription defaultSettings) (matchByDescription s);
         s_matchByReference :=
           default (s_matchByReference defaultSettings) (matchByReference s);
         s_matchByDate := default (s_matchByDate defaultSettings) (matchByDate s);
         s_dateTolerance := default (s_dateTolerance defaultSettings) (dateTolerance s);
         s_autoMatchExact := default (s_autoMatchExact defaultSettings) (autoMatchExact s) |}
  end.

(** ** Array helpers *)

(** [arr.findIndex(p)], with [None] for -1. *)
Fixpoint findIndex {A : Type} (p : A -> bool) (arr : list A) : option nat :=
  match arr with
  | [] => None
  | x :: rest => if p x then Some 0%nat else S <$> findIndex p rest
  end.

(** [for (let i = n - 1; i >= 0; i--) body], with [n] iterations left; an
    error in the body ends the loop. *)
Fixpoint forDown {St : Type} (body : nat -> St -> option St) (n : nat)
    (s : St) : option St :=
  match n with
  | O => Some s
  | S i => s' ← body i s; forDown body i s'
  end.

(** ** Matcher engine *)

Record MatchOutcome (T : Type) : Type := {
  o_matched : list (MatchedTransaction T);
  o_unmatchedBank : list T;
  o_unmatchedBook : list T
}.
Arguments o_matched {T} _.
Arguments o_unmatchedBank {T} _.
Arguments o_unmatchedBook {T} _.

Record BestMatch : Type := {
  index : nat;
  best_confidence : number
}.

(** The test of [findExactMatches]' [findIndex] callback. *)
Definition exactKey (bookTx bankTx : Transaction) : bool :=
  Qeq_bool (amount bookTx) (amount bankTx)
  && Z.eqb (date bookTx) (date bankTx)
  && optStringEq (reference bookTx) (reference bankTx).

(** The three arrays the two passes work on: [remainingBankTransactions],
    [remainingBookTransactions] and [matched]. *)
Record Working (T : Type) : Type := {
  w_bank : list T;
  w_book : list T;
  w_matched : list (MatchedTransaction T)
}.
Arguments w_bank {T} _.
Arguments w_book {T} _.
Arguments w_matched {T} _.

Section Matcher.
Context {T : Type} (tx : T -> Transaction).

(** One iteration of the loop of [findExactMatches], at index [i]. *)
Definition exactBody (i : nat) (w : Working T) : option (Working T) :=
  bankTx ← w_bank w !! i;
  match findIndex (fun bookTx => exactKey (tx bookTx) (tx bankTx)) (w_book w) with
  | None => Some w
  | Some bookIndex =>
      bookTx ← w_book w !! bookIndex;
      Some {| w_matched :=
                w_matched w ++ [ {| bankTransaction := bankTx;
                                    bookTransaction := bookTx;
                                    confidence := Num 1;
                                    matchMethod := exact |} ];
              w_bank := delete i (w_bank w);
              w_book := delete bookIndex (w_book w) |}
  end.

Definition findExactMatches (w : Working T) : option (Working T) :=
  forDown exactBody (length (w_bank w)) w.

(** The inner loop of [findFuzzyMatches]: [j] runs over the book array,
    which this loop does not change. *)
Fixpoint scanBook (bankTx : T) (settings : Settings) (j : nat)
    (books : list T) (bestMatch : option BestMatch) : option BestMatch :=
  match books with
  | [] => bestMatch
  | bookTx :: rest =>
      let confidence := calculateMatchConfidence (tx bankTx) (tx bookTx) settings in
      let bestMatch :=
        if num_ge confidence (Num (s_fuzzyThreshold settings))
           && match bestMatch with
              | None => true
              | Some b => num_gt confidence (best_confidence b)
              end
        then Some {| index := j; best_confidence := confidence |}
        else bestMatch in
      scanBook bankTx settings (S j) rest bestMatch
  end.

Definition fuzzyBody (settings : Settings) (i : nat) (w : Working T)
    : option (Working T) :=
  bankTx ← w_bank w !! i;
  match scanBook bankTx settings 0 (w_book w) None with
  | None => Some w
  | Some bestMatch =>
      bookTx ← w_book w !! index bestMatch;
      Some {| w_matched :=
                w_matched w ++ [ {| bankTransaction := bankTx;
                                    bookTransaction := bookTx;
                                    confidence := best_confidence bestMatch;
                                    matchMethod := fuzzy |} ];
              w_bank := delete i (w_bank w);
              w_book := delete (index bestMatch) (w_book w) |}
  end.

Definition findFuzzyMatches (settings : Settings) (w : Working T)
    : option (Working T) :=
  forDown (fuzzyBody settings) (length (w_bank w)) w.

Definition matchTransactions (bankTransactions bookTransactions : list T)
    (settings : Settings) : option (MatchOutcome T) :=
  let w := {| w_bank := bankTransactions;
              w_book := bookTransactions;
              w_matched := [] |} in
  w ← (if s_autoMatchExact settings then findExactMatches w else Some w);
  w ← (if s_fuzzyMatching settings then findFuzzyMatches settings w else Some w);
  Some {| o_matched := w_matched w;
          o_unmatchedBank := w_bank w;
          o_unmatchedBook := w_book w |}.

(** ** Summary calculator *)

Definition calculateReconciliationSummary (account : AccountInfo)
    (matched : list (MatchedTransaction T))
    (unmatchedBank unmatchedBook : list T) : ReconciliationSummary :=
  let matchedAmount :=
    fold_left (fun sum match_ => (sum + amount (tx (bankTransaction match_)))%Q)
              matched 0%Q in
  let unmatchedBankAmount :=
    fold_left (fun sum t => (sum + amount (tx t))%Q) unmatchedBank 0%Q in
  let unmatchedBookAmount :=
    fold_left (fun sum t => (sum + amount (tx t))%Q) unmatchedBook 0%Q in
  let discrepancy := (unmatchedBankAmount - unmatchedBookAmount)%Q in
  let totalTransactions :=
    (length matched + length unmatchedBank + length unmatchedBook)%nat in
  let matchPercentage :=
    if (0 <? totalTransactions)%nat
    then (inject_Z (Z.of_nat (length matched))
          / inject_Z (Z.of_nat totalTransactions) * 100)%Q
    else 100%Q in
  {| matchedAmount := matchedAmount;
     unmatchedBankAmount := unmatchedBankAmount;
     unmatchedBookAmount := unmatchedBookAmount;
     discrepancy := discrepancy;
     status := if Qlt_bool (Qabs discrepancy) 0.01 then balanced else unbalanced;
     matchPercentage := matchPercentage |}.

(** [generateReconciliationSummary] of the summary module. *)
Definition generateReconciliationSummary (account : AccountInfo)
    (matched : list (MatchedTransaction T))
    (unmatchedBank unmatchedBook : list T) : ReconciliationSummary :=
  let matchedAmount :=
    fold_left (fun sum match_ => (sum + amount (tx (bankTransaction match_)))%Q)
              matched 0%Q in
  let unmatchedBankAmount :=
    fold_left (fun sum t => (sum + amount (tx t))%Q) unmatchedBank 0%Q in
  let unmatchedBookAmount :=
    fold_left (fun sum t => (sum + amount (tx t))%Q) unmatchedBook 0%Q in
  let discrepancy := (unmatchedBankAmount - unmatchedBookAmount)%Q in
  let totalTransactions :=
    (length matched + length unmatchedBank + length unmatchedBook)%nat in
  let matchPercentage :=
    if (0 <? totalTransactions)%nat
    then (inject_Z (Z.of_nat (length matched))
          / inject_Z (Z.of_nat totalTransactions) * 100)%Q
    else 100%Q in
  {| matchedAmount := matchedAmount;
     unmatchedBankAmount := unmatchedBankAmount;
     unmatchedBookAmount := unmatchedBookAmount;
     discrepancy := discrepancy;
     status := if Qlt_bool (Qabs discrepancy) 0.01 then balanced else unbalanced;
     matchPercentage := matchPercentage |}.

(** ** Orchestrator *)

Definition processReconciliation (data : ReconciliationData T)
    : option (MatchResults T) :=
  let settings := mergeSettings (settings data) in
  matchResults ← matchTransactions (bankTransactions data)
                                   (bookTransactions data) settings;
  let summary :=
    calculateReconciliationSummary (account data) (o_matched matchResults)
      (o_unmatchedBank matchResults) (o_unmatchedBook matchResults) in
  Some {| matched := o_matched matchResults;
          unmatchedBank := o_unmatchedBank matchResults;
          unmatchedBook := o_unmatchedBook matchResults;
          summary := summary |}.

End Matcher.

(** * The rest of the formatter and summary modules *)

(** ** Validators ([validateTransaction], [validateReconciliationData])

    The validators are for data that may not have the declared shape, so
    their inputs are records whose fields may be missing.  A missing field
    ([undefined] or [null]) is [None]; a [Date] object, valid or not, is
    truthy, so only its absence counts; [type] is any string; a transaction
    list that is missing or is no array is [None]. *)

Record TransactionInput : Type := {
  in_id : option string;
  in_date : option Z;
  in_description : option string;
  in_amount : option Q;
  in_type : option string
}.

Record AccountInput : Type := {
  in_name : option string;
  in_number : option string;
  in_currency : option string
}.

Record PeriodInput : Type := {
  in_startDate : option Z;
  in_endDate : option Z
}.

Record DataInput (T : Type) : Type := {
  in_account : option AccountInput;
  in_period : option PeriodInput;
  in_bankTransactions : option (list T);
  in_bookTransactions : option (list T)
}.
Arguments in_account {T} _.
Arguments in_period {T} _.
Arguments in_bankTransactions {T} _.
Arguments in_bookTransactions {T} _.

Record ValidationResult : Type := {
  valid : bool;
  errors : list string
}.

(** A word between double quotes. *)
Definition quoted (s : string) : string :=
  (String (ascii_of_nat 34) s ++ String (ascii_of_nat 34) EmptyString)%string.

(** [if (cond) errors.push(message)]. *)
Definition pushIf (cond : bool) (message : string) (errors : list string)
    : list string :=
  if cond then errors ++ [message] else errors.

Definition finish (errors : list string) : ValidationResult :=
  {| valid := (length errors =? 0)%nat; errors := errors |}.

Definition validateTransaction (transaction : TransactionInput)
    : ValidationResult :=
  let errors := [] in
  let errors :=
    pushIf (negb (truthyOpt (in_id transaction)))
           "Transaction ID is required" errors in
  let errors :=
    pushIf (negb (bool_decide (is_Some (in_date transaction))))
           "Transaction date is required" errors in
  let errors :=
    pushIf (negb (truthyOpt (in_description transaction)))
           "Transaction description is required" errors in
  let errors :=
    pushIf (negb (bool_decide (is_Some (in_amount transaction))))
           "Transaction amount is required" errors in
  let errors :=
    if negb (truthyOpt (in_type transaction)) then
      errors ++ ["Transaction type is required"]
    else if negb (optStringEq (in_type transaction) (Some "debit"))
            && negb (optStringEq (in_type transaction) (Some "credit")) then
      errors ++ [("Transaction type must be either " ++ quoted "debit"
                  ++ " or " ++ quoted "credit")%string]
    else errors in
  finish errors.

Definition validateAccount (account : option AccountInput)
    (errors : list string) : list string :=
  match account with
  | None => errors ++ ["Account information is required"]
  | Some a =>
      let errors :=
        pushIf (negb (truthyOpt (in_name a))) "Account name is required" errors in
      let errors :=
        pushIf (negb (truthyOpt (in_number a))) "Account number is required"
               errors in
      pushIf (negb (truthyOpt (in_currency a))) "Account currency is required"
             errors
  end.

Definition validatePeriod (period : option PeriodInput)
    (errors : list string) : list string :=
  match period with
  | None => errors ++ ["Statement period is required"]
  | Some p =>
      let errors :=
        pushIf (negb (bool_decide (is_Some (in_startDate p))))
               "Start date is required" errors in
      let errors :=
        pushIf (negb (bool_decide (is_Some (in_endDate p))))
               "End date is required" errors in
      match in_startDate p, in_endDate p with
      | Some startDate, Some endDate =>
          pushIf (endDate <? startDate)%Z "End date must be after start date"
                 errors
      | _, _ => errors
      end
  end.

Definition validateList {T : Type} (transactions : option (list T))
    (notArray empty : string) (errors : list string) : list string :=
  match transactions with
  | None => errors ++ [notArray]
  | Some l => pushIf (length l =? 0)%nat empty errors
  end.

Definition validateReconciliationData {T : Type} (data : DataInput T)
    : ValidationResult :=
  let errors := [] in
  let errors := validateAccount (in_account data) errors in
  let errors := validatePeriod (in_period data) errors in
  let errors :=
    validateList (in_bankTransactions data)
      "Bank transactions must be an array"
      "At least one bank transaction is required" errors in
  let errors :=
    validateList (in_bookTransactions data)
      "Book transactions must be an array"
      "At least one book transaction is required" errors in
  finish errors.

(** A transaction and a data record of the declared types, as the
    validators see them. *)
Definition typeName (t : TransactionType) : string :=
  match t with
  | debit => "debit"
  | credit => "credit"
  end.

Definition inputOfTransaction (t : Transaction) : TransactionInput :=
  {| in_id := Some (id t);
     in_date := Some (date t);
     in_description := Some (description t);
     in_amount := Some (amount t);
     in_type := Some (typeName (type t)) |}.

Definition inputOfData {T : Type} (data : ReconciliationData T) : DataInput T :=
  {| in_account :=
       Some {| in_name := Some (name (account data));
               in_number := Some (number_ (account data));
               in_currency := Some (currency (account data)) |};
     in_period :=
       Some {| in_startDate := Some (startDate (period data));
               in_endDate := Some (endDate (period data)) |};
     in_bankTransactions := Some (bankTransactions data);
     in_bookTransactions := Some (bookTransactions data) |}.

(** ** Detailed report ([generateDetailedReconciliationReport])

    [matchedCategories] and [unmatchedCategories] are plain objects used as
    maps from category names to counts.  A plain object inherits the
    properties of [Object.prototype]: for a category with one of those
    names, [counts[category] || 0] is the inherited function or object, and
    adding 1 to it gives a string, not a number; that string is stored as
    the entry, except under [__proto__], whose setter ignores a string. *)

Inductive CountValue : Type :=
| Count (n : nat)
| NotANumber.

Definition inheritedNames : list string :=
  ["constructor"; "__defineGetter__"; "__defineSetter__"; "hasOwnProperty";
   "__lookupGetter__"; "__lookupSetter__"; "isPrototypeOf";
   "propertyIsEnumerable"; "toString"; "valueOf"; "__proto__";
   "toLocaleString"].

(** [counts[category] = (counts[category] || 0) + 1]. *)
Definition countCategory (counts : gmap string CountValue) (category : string)
    : gmap string CountValue :=
  if String.eqb category "__proto__" then counts
  else
    match counts !! category with
    | Some (Count n) => <[category := Count (n + 1)]> counts
    | Some NotANumber => <[category := NotANumber]> counts
    | None =>
        if existsb (String.eqb category) inheritedNames
        then <[category := NotANumber]> counts
        else <[category := Count 1]> counts
    end.

(** [tx.category || 'Uncategorized']. *)
Definition categoryOf (t : Transaction) : string :=
  match category t with
  | Some c => if truthy c then c else "Uncategorized"
  | None => "Uncategorized"
  end.

Record DetailedReport : Type := {
  dr_summary : ReconciliationSummary;
  dr_accountInfo : AccountInfo;
  dr_matchedCategories : gmap string CountValue;
  dr_unmatchedCategories : gmap string CountValue
}.

Definition generateDetailedReconciliationReport {T : Type}
    (tx : T -> Transaction) (account : AccountInfo)
    (matched : list (MatchedTransaction T))
    (unmatchedBank unmatchedBook : list T) : DetailedReport :=
  let summary :=
    generateReconciliationSummary tx account matched unmatchedBank
                                  unmatchedBook in
  let matchedCategories :=
    fold_left (fun counts match_ =>
                 countCategory counts (categoryOf (tx (bankTransaction match_))))
              matched ∅ in
  let unmatchedCategories := ∅ in
  let unmatchedCategories :=
    fold_left (fun counts t => countCategory counts (categoryOf (tx t)))
              unmatchedBank unmatchedCategories in
  let unmatchedCategories :=
    fold_left (fun counts t => countCategory counts (categoryOf (tx t)))
              unmatchedBook unmatchedCategories in
  {| dr_summary := summary;
     dr_accountInfo := account;
     dr_matchedCategories := matchedCategories;
     dr_unmatchedCategories := unmatchedCategories |}.

(** ** Metrics table ([formatFinancialMetricsTable])

    [formatCurrency] and [formatPercentage] of the currency utilities print
    numbers through the platform's number formatting; they are taken as
    they come.  An index past the end of an array reads [undefined], which
    the formatters receive as [None]. *)



Section Formatting.
Variable formatCurrency : option Q -> string -> string -> string.
Variable formatPercentage : option Q -> nat -> bool -> string.




End Formatting.

(** * Part two: the same code over a store

    Objects live in a store and variables hold references.  The matcher's
    three working arrays, the [MatchedTransaction] objects it creates, the
    caller's two arrays, the caller's [Transaction] objects and the [data]
    object are all cells of one store, so a write through any reference is
    visible through every alias. *)

Module Imp.

Abbreviation loc := positive.

(** The [data] object: its two arrays are references. *)
Record DataObject : Type := {
  d_account : AccountInfo;
  d_period : Period;
  d_bankTransactions : loc;
  d_bookTransactions : loc;
  d_settings : option ReconciliationSettings;
  d_matchResults : option loc
}.

Inductive obj : Type :=
| OTransaction (t : Transaction)
| OArray (elems : list loc)
| OMatched (m : MatchedTransaction loc)
| OData (d : DataObject).

Abbreviation heap := (gmap loc obj).

(** The object literal that [matchTransactions] returns. *)
Record OutcomeRefs : Type := {
  or_matched : loc;
  or_unmatchedBank : loc;
  or_unmatchedBook : loc
}.

(** The object literal that [processReconciliation] returns. *)
Record ResultsRefs : Type := {
  r_matched : loc;
  r_unmatchedBank : loc;
  r_unmatchedBook : loc;
  r_summary : ReconciliationSummary
}.

(** State and error: a computation reads and writes the store and may
    stop with a [TypeError] ([None]). *)
Definition M (A : Type) : Type := heap -> option (A * heap).

#[global] Instance M_ret : MRet M := fun A x h => Some (x, h).

#[global] Instance M_bind : MBind M := fun A B f m h =>
  match m h with
  | Some (x, h') => f x h'
  | None => None
  end.

Definition getHeap : M heap := fun h => Some (h, h).

Definition liftOpt {A : Type} (o : option A) : M A :=
  fun h => match o with Some x => Some (x, h) | None => None end.

(** A new object at an unused location. *)
Definition alloc (o : obj) : M loc :=
  fun h => let l := fresh (dom h) in Some (l, <[l := o]> h).

Definition readArray (r : loc) : M (list loc) :=
  fun h => match h !! r with
           | Some (OArray elems) => Some (elems, h)
           | _ => None
           end.

Definition writeArray (r : loc) (elems : list loc) : M unit :=
  fun h => match h !! r with
           | Some (OArray _) => Some (tt, <[r := OArray elems]> h)
           | _ => None
           end.

Definition readData (r : loc) : M DataObject :=
  fun h => match h !! r with
           | Some (OData d) => Some (d, h)
           | _ => None
           end.

(** [arr.length], [arr[i]], [arr.splice(i, 1)], [arr.push(x)], [[...arr]]. *)
Definition arrayLength (r : loc) : M nat :=
  elems ← readArray r; mret (length elems).

Definition at_ (r : loc) (i : nat) : M loc :=
  elems ← readArray r; liftOpt (elems !! i).

Definition splice1 (r : loc) (i : nat) : M unit :=
  elems ← readArray r; writeArray r (delete i elems).

Definition push (r : loc) (x : loc) : M unit :=
  elems ← readArray r; writeArray r (elems ++ [x]).

Definition spread (r : loc) : M loc :=
  elems ← readArray r; alloc (OArray elems).

(** What a reference that is no [Transaction] reads as; the type
    declarations exclude it. *)
Definition undefinedTx : Transaction :=
  {| id := EmptyString; date := 0; description := EmptyString; amount := 0%Q;
     type := debit; category := None; reference := None;
     matched_flag := None; matchId := None; metadata := None |}.

(** The fields of the [Transaction] a reference points to. *)
Definition readTx (h : heap) (l : loc) : Transaction :=
  match h !! l with
  | Some (OTransaction t) => t
  | _ => undefinedTx
  end.

Definition readMatched (h : heap) (l : loc) : option (MatchedTransaction loc) :=
  match h !! l with
  | Some (OMatched m) => Some m
  | _ => None
  end.

Fixpoint forDownM (body : nat -> M unit) (n : nat) : M unit :=
  match n with
  | O => mret tt
  | S i => body i ;; forDownM body i
  end.

Definition exactBody (bankTransactions bookTransactions matched : loc)
    (i : nat) : M unit :=
  bankTx ← at_ bankTransactions i;
  books ← readArray bookTransactions;
  h ← getHeap;
  match findIndex (fun bookTx => exactKey (readTx h bookTx) (readTx h bankTx))
                  books with
  | None => mret tt
  | Some bookIndex =>
      bookTx ← at_ bookTransactions bookIndex;
      m ← alloc (OMatched {| bankTransaction := bankTx;
                             bookTransaction := bookTx;
                             confidence := Num 1;
                             matchMethod := exact |});
      push matched m;;
      splice1 bankTransactions i;;
      splice1 bookTransactions bookIndex
  end.

Definition findExactMatches (bankTransactions bookTransactions matched : loc)
    : M unit :=
  n ← arrayLength bankTransactions;
  forDownM (exactBody bankTransactions bookTransactions matched) n.

Definition fuzzyBody (bankTransactions bookTransactions matched : loc)
    (settings : Settings) (i : nat) : M unit :=
  bankTx ← at_ bankTransactions i;
  books ← readArray bookTransactions;
  h ← getHeap;
  match scanBook (readTx h) bankTx settings 0 books None with
  | None => mret tt
  | Some bestMatch =>
      bookTx ← at_ bookTransactions (index bestMatch);
      m ← alloc (OMatched {| bankTransaction := bankTx;
                             bookTransaction := bookTx;
                             confidence := best_confidence bestMatch;
                             matchMethod := fuzzy |});
      push matched m;;
      splice1 bankTransactions i;;
      splice1 bookTransactions (index bestMatch)
  end.

Definition findFuzzyMatches (bankTransactions bookTransactions matched : loc)
    (settings : Settings) : M unit :=
  n ← arrayLength bankTransactions;
  forDownM (fuzzyBody bankTransactions bookTransactions matched settings) n.

Definition matchTransactions (bankTransactions bookTransactions : loc)
    (settings : Settings) : M OutcomeRefs :=
  remainingBankTransactions ← spread bankTransactions;
  remainingBookTransactions ← spread bookTransactions;
  matched ← alloc (OArray []);
  (if s_autoMatchExact settings
   then findExactMatches remainingBankTransactions remainingBookTransactions
                         matched
   else mret tt);;
  (if s_fuzzyMatching settings
   then findFuzzyMatches remainingBankTransactions remainingBookTransactions
                         matched settings
   else mret tt);;
  mret {| or_matched := matched;
          or_unmatchedBank := remainingBankTransactions;
          or_unmatchedBook := remainingBookTransactions |}.

Definition calculateReconciliationSummary (account : AccountInfo)
    (matched unmatchedBank unmatchedBook : loc) : M ReconciliationSummary :=
  matchedRefs ← readArray matched;
  unmatchedBankRefs ← readArray unmatchedBank;
  unmatchedBookRefs ← readArray unmatchedBook;
  h ← getHeap;
  matchedObjs ← liftOpt (mapM (readMatched h) matchedRefs);
  mret (calculateReconciliationSummary (readTx h) account
          matchedObjs unmatchedBankRefs unmatchedBookRefs).

Definition processReconciliation (data : loc) : M ResultsRefs :=
  d ← readData data;
  let settings := mergeSettings (d_settings d) in
  matchResults ← matchTransactions (d_bankTransactions d)
                                   (d_bookTransactions d) settings;
  summary ← calculateReconciliationSummary (d_account d)
              (or_matched matchResults) (or_unmatchedBank matchResults)
              (or_unmatchedBook matchResults);
  mret {| r_matched := or_matched matchResults;
          r_unmatchedBank := or_unmatchedBank matchResults;
          r_unmatchedBook := or_unmatchedBook matchResults;
          r_summary := summary |}.

End Imp.

(** * Properties *)

(** ** Vocabulary of the statements *)

(** The sum of a list of amounts. *)
Fixpoint Qsum (l : list Q) : Q :=
  match l with
  | [] => 0%Q
  | x :: rest => (x + Qsum rest)%Q
  end.

(** The transactions of the boundary scenario: 15 and 18 June 2023, 00:00
    UTC, as time values. *)
Definition scenario_b1 : Transaction :=
  {| id := "b1"; date := 1686787200000; description := "Office Supplies";
     amount := (-350)%Q; type := debit; category := None; reference := None;
     matched_flag := None; matchId := None; metadata := None |}.

Definition scenario_k1 : Transaction :=
  {| id := "k1"; date := 1687046400000;
     description := "Office Supplies Purchase";
     amount := (-350)%Q; type := debit; category := None; reference := None;
     matched_flag := None; matchId := None; metadata := None |}.

Definition scenario_account : AccountInfo :=
  {| name := "Business Checking"; number_ := "1234567890"; bank := None;
     currency := "USD"; openingBalance := 5000%Q; closingBalance := 8500%Q |}.

Definition scenario_data : ReconciliationData Transaction :=
  {| account := scenario_account;
     period := {| startDate := 1685577600000; endDate := 1688083200000 |};
     bankTransactions := [scenario_b1];
     bookTransactions := [scenario_k1];
     settings := None;
     matchResults := None |}.

(** What the confidence model keeps true of [(totalScore, totalWeight)]:
    a score that is a number lies between 0 and the weight. *)
Definition accOK (acc : number * Q) : Prop :=
  (0 <= snd acc)%Q
  /\ match fst acc with
     | Num q => (0 <= q <= snd acc)%Q
     | NaN => True
     end.

(** Two bank transactions and one book transaction that agree on amount,
    date and reference. *)
Definition twin (i : string) : Transaction :=
  {| id := i; date := 1686787200000; description := "Wire transfer";
     amount := 5000%Q; type := credit; category := None;
     reference := Some "REF1";
     matched_flag := None; matchId := None; metadata := None |}.

Definition twin_b1 : Transaction := twin "b1".
Definition twin_b2 : Transaction := twin "b2".
Definition twin_k1 : Transaction := twin "k1".

(** A book transaction one day after the twins, all else equal. *)
Definition twin_late : Transaction :=
  {| id := "k0"; date := 1686873600000; description := "Wire transfer";
     amount := 5000%Q; type := credit; category := None;
     reference := Some "REF1";
     matched_flag := None; matchId := None; metadata := None |}.

(** The working arrays when [matchTransactions] starts, and the object it
    returns from them at its end. *)
Definition start {T : Type} (bank book : list T) : Working T :=
  {| w_bank := bank; w_book := book; w_matched := [] |}.

Definition outcome {T : Type} (w : Working T) : MatchOutcome T :=
  {| o_matched := w_matched w;
     o_unmatchedBank := w_bank w;
     o_unmatchedBook := w_book w |}.

(** An entry made by the first pass, and one made by the second. *)
Definition exactEntry {T : Type} (tx : T -> Transaction)
    (m : MatchedTransaction T) : Prop :=
  matchMethod m = exact
  /\ confidence m = Num 1
  /\ exactKey (tx (bookTransaction m)) (tx (bankTransaction m)) = true.

Definition fuzzyEntry {T : Type} (tx : T -> Transaction) (settings : Settings)
    (m : MatchedTransaction T) : Prop :=
  matchMethod m = fuzzy
  /\ confidence m
     = calculateMatchConfidence (tx (bankTransaction m)) (tx (bookTransaction m))
                                settings
  /\ num_ge (confidence m) (Num (s_fuzzyThreshold settings)) = true.

(** What one iteration of either pass does to the working arrays: nothing,
    or it moves the bank element at [i] and one book element into a new
    entry at the end of [matched]. *)
Definition removal {T : Type} (Q : MatchedTransaction T -> Prop) (i : nat)
    (w w' : Working T) : Prop :=
  w' = w
  \/ exists (j : nat) (m : MatchedTransaction T),
       w_bank w !! i = Some (bankTransaction m)
       /\ w_book w !! j = Some (bookTransaction m)
       /\ Q m
       /\ w' = {| w_bank := delete i (w_bank w);
                  w_book := delete j (w_book w);
                  w_matched := w_matched w ++ [m] |}.

(** What a run of iterations keeps true between the arrays at its start
    [w0] and at its end [w]. *)
Definition related {T : Type} (Q : MatchedTransaction T -> Prop)
    (w0 w : Working T) : Prop :=
  map bankTransaction (w_matched w) ++ w_bank w
    ≡ₚ map bankTransaction (w_matched w0) ++ w_bank w0
  /\ map bookTransaction (w_matched w) ++ w_book w
       ≡ₚ map bookTransaction (w_matched w0) ++ w_book w0
  /\ sublist (w_bank w) (w_bank w0)
  /\ sublist (w_book w) (w_book w0)
  /\ exists new, w_matched w = w_matched w0 ++ new /\ Forall Q new.

(** No bank element at index [n] or above has an exact counterpart left. *)
Definition cleared {T : Type} (tx : T -> Transaction) (n : nat)
    (w : Working T) : Prop :=
  forall (i : nat) (b k : T),
    (n <= i)%nat -> w_bank w !! i = Some b -> k ∈ w_book w ->
    exactKey (tx k) (tx b) = false.

(** The incumbent of the inner loop of the second pass after the book
    elements [seen]: none of them reaches the threshold, or the incumbent
    is the first of the best among those that do. *)
Definition bestOf {T : Type} (conf : T -> number) (thr : number)
    (seen : list T) (best : option BestMatch) : Prop :=
  match best with
  | None => forall x, x ∈ seen -> num_ge (conf x) thr = false
  | Some b =>
      exists x,
        seen !! index b = Some x
        /\ best_confidence b = conf x
        /\ num_ge (conf x) thr = true
        /\ forall j' x', seen !! j' = Some x' -> num_ge (conf x') thr = true ->
             num_le (conf x') (conf x) = true
             /\ ((j' < index b)%nat -> num_lt (conf x') (conf x) = true)
  end.

(** A reference to a [Transaction] object of the store. *)
Definition isTx (h : Imp.heap) (l : Imp.loc) : Prop :=
  exists t, h !! l = Some (Imp.OTransaction t).

(** How the store [h] in the middle of [Imp.matchTransactions] represents
    the working arrays [w] of part one: [h0] is the caller's store, which
    [h] extends; [rb], [rk] and [rm] are the three arrays the matcher
    created; the entries of [matched] are objects the matcher created; the
    elements of the two working arrays are the caller's transactions. *)
Record sim (h0 : Imp.heap) (rb rk rm : Imp.loc) (h : Imp.heap)
    (w : Working Imp.loc) : Prop := {
  sim_sub : h0 ⊆ h;
  sim_new_bank : h0 !! rb = None;
  sim_new_book : h0 !! rk = None;
  sim_new_matched : h0 !! rm = None;
  sim_bank_book : rb <> rk;
  sim_bank_matched : rb <> rm;
  sim_book_matched : rk <> rm;
  sim_bank : h !! rb = Some (Imp.OArray (w_bank w));
  sim_book : h !! rk = Some (Imp.OArray (w_book w));
  sim_matched :
    exists ms,
      h !! rm = Some (Imp.OArray ms)
      /\ Forall2 (fun l m => h !! l = Some (Imp.OMatched m) /\ h0 !! l = None)
                 ms (w_matched w);
  sim_tx_bank : Forall (isTx h0) (w_bank w);
  sim_tx_book : Forall (isTx h0) (w_book w)
}.

(** A caller's store: the three twins at 1, 2 and 3, the bank array at 4,
    the book array at 5 and the [data] object at 6. *)
Definition twin_data : Imp.DataObject :=
  {| Imp.d_account := scenario_account;
     Imp.d_period := {| startDate := 1685577600000; endDate := 1688083200000 |};
     Imp.d_bankTransactions := 4%positive;
     Imp.d_bookTransactions := 5%positive;
     Imp.d_settings := None;
     Imp.d_matchResults := None |}.

Definition twin_heap : Imp.heap :=
  <[1%positive := Imp.OTransaction twin_b1]>
  (<[2%positive := Imp.OTransaction twin_b2]>
  (<[3%positive := Imp.OTransaction twin_k1]>
  (<[4%positive := Imp.OArray [1%positive; 2%positive]]>
  (<[5%positive := Imp.OArray [3%positive]]>
  (<[6%positive := Imp.OData twin_data]> ∅))))).

(** The caller's [data] object with its two arrays read out. *)
Definition dataOf (d : Imp.DataObject) (bank book : list Imp.loc)
    : ReconciliationData Imp.loc :=
  {| account := Imp.d_account d;
     period := Imp.d_period d;
     bankTransactions := bank;
     bookTransactions := book;
     settings := Imp.d_settings d;
     matchResults := None |}.

(** No bank transaction of [bank] and book transaction of [book] agree on
    amount, date and reference; none reach the threshold together. *)
Definition noExactPair {T : Type} (tx : T -> Transaction)
    (bank book : list T) : Prop :=
  forall b k, b ∈ bank -> k ∈ book -> exactKey (tx k) (tx b) = false.

Definition noFuzzyPair {T : Type} (tx : T -> Transaction) (settings : Settings)
    (bank book : list T) : Prop :=
  forall b k, b ∈ bank -> k ∈ book ->
    num_ge (calculateMatchConfidence (tx b) (tx k) settings)
           (Num (s_fuzzyThreshold settings)) = false.

(** No bank element at index [n] or above has a book element left that
    reaches the threshold with it. *)
Definition fuzzyCleared {T : Type} (tx : T -> Transaction) (settings : Settings)
    (n : nat) (w : Working T) : Prop :=
  forall (i : nat) (b k : T),
    (n <= i)%nat -> w_bank w !! i = Some b -> k ∈ w_book w ->
    num_ge (calculateMatchConfidence (tx b) (tx k) settings)
           (Num (s_fuzzyThreshold settings)) = false.



Definition fullAcc (lo : Q) (acc : number * Q) : Prop :=
  (lo <= snd acc)%Q /\ exists q, fst acc = Num q /\ (q == snd acc)%Q.

Definition zeroDivision (bankTx bookTx : Transaction) (settings : Settings)
    : bool :=
  s_matchByDate settings
  && Qle_bool (daysBetween bankTx bookTx) (s_dateTolerance settings)
  && Qeq_bool (s_dateTolerance settings) 0.

Definition nanAcc (trigger : bool) (acc : number * Q) : Prop :=
  (0 <= snd acc)%Q
  /\ if trigger then fst acc = NaN /\ (0.3 <= snd acc)%Q
     else exists q, fst acc = Num q.

(** A transaction with its description and reference in lower case. *)
Definition lowered (t : Transaction) : Transaction :=
  {| id := id t; date := date t;
     description := toLowerCase (description t);
     amount := amount t; type := type t; category := category t;
     reference := toLowerCase <$> reference t;
     matched_flag := matched_flag t; matchId := matchId t;
     metadata := metadata t |}.

(** Settings with a zero date tolerance and the first pass disabled. *)
Definition zeroToleranceSettings : Settings :=
  {| s_fuzzyMatching := true;
     s_fuzzyThreshold := 0.7%Q;
     s_matchByAmount := true;
     s_matchByDescription := true;
     s_matchByReference := true;
     s_matchByDate := true;
     s_dateTolerance := 0%Q;
     s_autoMatchExact := false |}.

(** The number an entry of a category map stands for. *)
Definition countOf (v : option CountValue) : nat :=
  match v with
  | Some (Count n) => n
  | _ => 0%nat
  end.

(** A bank transaction without a category and one in a category. *)
Definition twin_travel : Transaction :=
  {| id := "b3"; date := 1686787200000; description := "Train ticket";
     amount := 80%Q; type := debit; category := Some "Travel";
     reference := None;
     matched_flag := None; matchId := None; metadata := None |}.

(** How many elements of a list a test accepts. *)
Definition countIf {A : Type} (p : A -> bool) (l : list A) : nat :=
  length (List.filter p l).

(** ** Numbers *)

Lemma Qlt_bool_iff (x y : Q) : Qlt_bool x y = true <-> (x < y)%Q.
Proof.
  unfold Qlt_bool. rewrite negb_true_iff.
  destruct (Qle_bool y x) eqn:E.
  - apply Qle_bool_iff in E. split; [discriminate | intros H; exfalso; lra].
  - split; [intros _ | reflexivity].
    apply Qnot_le_lt. intros H. apply Qle_bool_iff in H. congruence.
Qed.

Lemma num_ge_Num (a : number) (t : Q) :
  num_ge a (Num t) = true -> exists q, a = Num q /\ (t <= q)%Q.
Proof.
  destruct a as [q|]; simpl; [|discriminate].
  intros H. exists q. split; [reflexivity | now apply Qle_bool_iff].
Qed.

(** ** Similarity scorer *)

Lemma includes_empty (s : string) : includes s EmptyString = true.
Proof. destruct s; reflexivity. Qed.

Lemma calculateStringSimilarity_range (str1 str2 : string) :
  (0 <= calculateStringSimilarity str1 str2 <= 1)%Q.
Proof.
  unfold calculateStringSimilarity.
  destruct (String.eqb str1 str2); [lra|].
  destruct (includes str1 str2 || includes str2 str1); [lra|].
  unfold tokenScore. set (c := countMatches _ _). set (n := Nat.max _ 1).
  assert (0 <= inject_Z (Z.of_nat c) / inject_Z (Z.of_nat n))%Q as Hq.
  { apply Qle_shift_div_l.
    - change 0%Q with (inject_Z 0). rewrite <- Zlt_Qlt. subst n. lia.
    - rewrite Qmult_0_l. change 0%Q with (inject_Z 0). rewrite <- Zle_Qle. lia. }
  split.
  - apply Q.min_glb; [lra | exact Hq].
  - apply Q.le_min_l.
Qed.

(** C5 (as stated) fails: with an empty second string the scorer stops at
    rule 2 and returns 0.8 (the token count of rule 3 would be 1 there, as
    every long word contains the empty token), and two empty strings stop
    at rule 1. *)
Lemma similarity_empty_counterexample :
  ~ (forall str1 str2 : string,
        str1 = EmptyString \/ str2 = EmptyString ->
        String.eqb str1 str2 = false
        /\ includes str1 str2 || includes str2 str1 = false
        /\ calculateStringSimilarity str1 str2 = tokenScore str1 str2).
Proof.
  intros H.
  destruct (H "office supplies" EmptyString (or_intror eq_refl)) as (_ & H2 & _).
  vm_compute in H2. discriminate.
Qed.

Example similarity_one_empty :
  calculateStringSimilarity "office supplies" "" = 0.8%Q
  /\ (tokenScore "office supplies" "" == 1)%Q
  /\ calculateStringSimilarity "" "" = 1%Q.
Proof. split; [|split]; vm_compute; reflexivity. Qed.

(** C5 (amended): the scorer is total with values in [0,1], and when at
    least one string is empty rule 1 or rule 2 always applies: the score is
    1.0 when both are empty and 0.8 when exactly one is, because the empty
    string is a substring of every string; rule 3 is not reached. *)
Theorem similarity_empty (str1 str2 : string) :
  str1 = EmptyString \/ str2 = EmptyString ->
  (String.eqb str1 str2 = true
   \/ includes str1 str2 || includes str2 str1 = true)
  /\ calculateStringSimilarity str1 str2
     = (if String.eqb str1 str2 then 1%Q else 0.8%Q)
  /\ (String.eqb str1 str2 = true <-> str1 = EmptyString /\ str2 = EmptyString)
  /\ (0 <= calculateStringSimilarity str1 str2 <= 1)%Q.
Proof.
  intros H.
  assert (includes str1 str2 || includes str2 str1 = true) as Hinc.
  { destruct H as [-> | ->]; rewrite includes_empty;
      [apply orb_true_r | apply orb_true_l]. }
  split; [right; exact Hinc|]. split; [|split].
  - unfold calculateStringSimilarity. rewrite Hinc.
    destruct (String.eqb str1 str2); reflexivity.
  - rewrite String.eqb_eq. split.
    + intros ->. destruct H as [-> | ->]; split; reflexivity.
    + intros [-> ->]. reflexivity.
  - apply calculateStringSimilarity_range.
Qed.

Lemma similarity_empty_witness :
  calculateStringSimilarity "invoice 42" "" = 0.8%Q.
Proof.
  destruct (similarity_empty "invoice 42" "" (or_intror eq_refl))
    as (_ & H & _).
  exact H.
Defined.

(** ** Confidence model *)

Lemma daysBetween_nonneg (bankTx bookTx : Transaction) :
  (0 <= daysBetween bankTx bookTx)%Q.
Proof.
  unfold daysBetween, msPerDay. apply Qle_shift_div_l.
  - reflexivity.
  - rewrite Qmult_0_l. change 0%Q with (inject_Z 0). rewrite <- Zle_Qle. lia.
Qed.

(** The only division that can meet a zero divisor divides zero. *)
Lemma daysDiff_zero_tolerance (bankTx bookTx : Transaction) (settings : Settings) :
  Qle_bool (daysBetween bankTx bookTx) (s_dateTolerance settings) = true ->
  (s_dateTolerance settings == 0)%Q ->
  (daysBetween bankTx bookTx == 0)%Q.
Proof.
  intros Hle H0. apply Qle_bool_iff in Hle.
  pose proof (daysBetween_nonneg bankTx bookTx). lra.
Qed.

Lemma scoreAmount_ok bankTx bookTx settings acc :
  accOK acc -> accOK (scoreAmount bankTx bookTx settings acc).
Proof.
  destruct acc as [[q|] w]; unfold accOK, scoreAmount; simpl; intros [Hw Hq];
    destruct (s_matchByAmount settings); simpl; try (split; [lra | exact Hq]);
    destruct (Qeq_bool _ _); simpl; split; try lra; exact I.
Qed.

Lemma scoreDate_ok bankTx bookTx settings acc :
  accOK acc -> accOK (scoreDate bankTx bookTx settings acc).
Proof.
  destruct acc as [score w]. unfold accOK, scoreDate. simpl. intros [Hw Hq].
  destruct (s_matchByDate settings); simpl; [|split; assumption].
  pose proof (daysBetween_nonneg bankTx bookTx) as Hd.
  destruct (Qle_bool _ _) eqn:Hle; simpl.
  2:{ split; [lra|]. destruct score; [lra | exact I]. }
  apply Qle_bool_iff in Hle.
  destruct (Qeq_bool (s_dateTolerance settings) 0) eqn:Hz; simpl.
  { split; [lra|]. destruct score; exact I. }
  apply Qeq_bool_neq in Hz.
  assert (0 < s_dateTolerance settings)%Q as Hpos.
  { destruct (Qlt_le_dec 0 (s_dateTolerance settings)) as [?|?]; [assumption|].
    exfalso. apply Hz. lra. }
  set (d := (daysBetween bankTx bookTx / s_dateTolerance settings)%Q).
  assert (0 <= d <= 1)%Q as Hdr.
  { subst d. split.
    - apply Qle_shift_div_l; [assumption | lra].
    - apply Qle_shift_div_r; [assumption | lra]. }
  split; [lra|]. destruct score; simpl; [lra | exact I].
Qed.

Lemma scoreDescription_ok bankTx bookTx settings acc :
  accOK acc -> accOK (scoreDescription bankTx bookTx settings acc).
Proof.
  destruct acc as [score w]. unfold accOK, scoreDescription. simpl. intros [Hw Hq].
  destruct (_ && _); simpl; [|split; assumption].
  pose proof (calculateStringSimilarity_range
                (toLowerCase (description bankTx))
                (toLowerCase (description bookTx))) as Hs.
  split; [lra|]. destruct score; simpl; [lra | exact I].
Qed.

Lemma scoreReference_ok bankTx bookTx settings acc :
  accOK acc -> accOK (scoreReference bankTx bookTx settings acc).
Proof.
  destruct acc as [score w]. unfold accOK, scoreReference. simpl. intros [Hw Hq].
  destruct (_ && _); simpl; [|split; assumption].
  pose proof (calculateStringSimilarity_range
                (toLowerCase (default EmptyString (reference bankTx)))
                (toLowerCase (default EmptyString (reference bookTx)))) as Hs.
  split; [lra|]. destruct score; simpl; [lra | exact I].
Qed.

(** A confidence that is a number lies in [0,1]. *)
Lemma calculateMatchConfidence_range bankTx bookTx settings q :
  calculateMatchConfidence bankTx bookTx settings = Num q -> (0 <= q <= 1)%Q.
Proof.
  unfold calculateMatchConfidence.
  assert (accOK (Num 0, 0%Q)) as H0 by (unfold accOK; simpl; lra).
  apply (scoreAmount_ok bankTx bookTx settings) in H0.
  apply (scoreDate_ok bankTx bookTx settings) in H0.
  apply (scoreDescription_ok bankTx bookTx settings) in H0.
  apply (scoreReference_ok bankTx bookTx settings) in H0.
  destruct (scoreReference _ _ _ _) as [score w]. destruct H0 as [Hw Hq]. simpl in *.
  destruct (Qlt_bool 0 w) eqn:Hlt.
  - apply Qlt_bool_iff in Hlt. destruct score as [x|]; simpl; [|discriminate].
    destruct (Qeq_bool w 0); [discriminate|]. intros [= <-]. split.
    + apply Qle_shift_div_l; [assumption | lra].
    + apply Qle_shift_div_r; [assumption | lra].
  - intros [= <-]. lra.
Qed.

(** C6: in the boundary scenario the confidence is
    (0.4 + 0 + 0.2 * 0.8) / 0.9, about 0.622 and below the default threshold
    0.7, and reconciliation with the default settings leaves both
    transactions unmatched with no matched pair. *)
Theorem scenario_boundary_unmatched :
  (s_dateTolerance defaultSettings == 3)%Q
  /\ (s_fuzzyThreshold defaultSettings == 0.7)%Q
  /\ (exists c : Q,
        calculateMatchConfidence scenario_b1 scenario_k1 defaultSettings = Num c
        /\ (c == (0.4 + 0 + 0.2 * 0.8) / 0.9)%Q
        /\ (0.622 <= c < 0.623)%Q
        /\ (c < s_fuzzyThreshold defaultSettings)%Q)
  /\ (exists r : MatchResults Transaction,
        processReconciliation (fun t => t) scenario_data = Some r
        /\ matched r = []
        /\ unmatchedBank r = [scenario_b1]
        /\ unmatchedBook r = [scenario_k1]).
Proof.
  split; [reflexivity|]. split; [reflexivity|]. split.
  - eexists. split; [vm_compute; reflexivity|].
    split; [reflexivity|].
    split; [split; [vm_compute; discriminate | vm_compute; reflexivity]
           | vm_compute; reflexivity].
  - eexists. split; [vm_compute; reflexivity|]. repeat split.
Qed.

(** The three factors of the scenario: amount 0.4, date 0 (three days at a
    tolerance of three), description 0.2 * 0.8; total weight 0.9. *)
Example scenario_factors :
  let acc1 := scoreAmount scenario_b1 scenario_k1 defaultSettings (Num 0, 0%Q) in
  let acc2 := scoreDate scenario_b1 scenario_k1 defaultSettings acc1 in
  let acc3 := scoreDescription scenario_b1 scenario_k1 defaultSettings acc2 in
  let acc4 := scoreReference scenario_b1 scenario_k1 defaultSettings acc3 in
  num_le (fst acc1) (Num 0.4) && num_ge (fst acc1) (Num 0.4)
  && num_le (fst acc2) (Num 0.4) && num_ge (fst acc2) (Num 0.4)
  && num_le (fst acc3) (Num 0.56) && num_ge (fst acc3) (Num 0.56)
  && Qeq_bool (snd acc3) 0.9 && Qeq_bool (snd acc4) 0.9
  && Qeq_bool (calculateStringSimilarity (toLowerCase (description scenario_b1))
                                         (toLowerCase (description scenario_k1)))
              0.8 = true.
Proof. vm_compute. reflexivity. Qed.

(** ** Summary calculator *)

Lemma fold_left_Qsum {A : Type} (f : A -> Q) (l : list A) (a : Q) :
  (fold_left (fun sum x => sum + f x) l a == a + Qsum (map f l))%Q.
Proof.
  revert a. induction l as [|x l IH]; intros a; simpl.
  - ring.
  - rewrite IH. ring.
Qed.

(** C7: every field of the summary: the three sums (the matched one over
    the bank side), the discrepancy, the status and the percentage. *)
Theorem summary_fields {T : Type} (tx : T -> Transaction) (account : AccountInfo)
    (matched : list (MatchedTransaction T)) (unmatchedBank unmatchedBook : list T) :
  let r := calculateReconciliationSummary tx account matched
             unmatchedBank unmatchedBook in
  let total := (length matched + length unmatchedBank + length unmatchedBook)%nat in
  (matchedAmount r
   == Qsum (map (fun m => amount (tx (bankTransaction m))) matched))%Q
  /\ (unmatchedBankAmount r == Qsum (map (fun t => amount (tx t)) unmatchedBank))%Q
  /\ (unmatchedBookAmount r == Qsum (map (fun t => amount (tx t)) unmatchedBook))%Q
  /\ (discrepancy r == unmatchedBankAmount r - unmatchedBookAmount r)%Q
  /\ (status r = balanced <-> (Qabs (discrepancy r) < 0.01)%Q)
  /\ (status r = unbalanced <-> ~ (Qabs (discrepancy r) < 0.01)%Q)
  /\ (matchPercentage r
      == if (total =? 0)%nat then 100
         else inject_Z (Z.of_nat (length matched))
              / inject_Z (Z.of_nat total) * 100)%Q.
Proof.
  intros r total. subst r. unfold calculateReconciliationSummary.
  fold total.
  set (ma := fold_left _ matched 0%Q).
  set (ba := fold_left _ unmatchedBank 0%Q).
  set (ka := fold_left _ unmatchedBook 0%Q).
  cbn [matchedAmount unmatchedBankAmount unmatchedBookAmount discrepancy
       status matchPercentage].
  split; [subst ma; rewrite fold_left_Qsum; ring|].
  split; [subst ba; rewrite fold_left_Qsum; ring|].
  split; [subst ka; rewrite fold_left_Qsum; ring|].
  split; [reflexivity|].
  pose proof (Qlt_bool_iff (Qabs (ba - ka)) 0.01) as Hlt.
  destruct (Qlt_bool (Qabs (ba - ka)) 0.01).
  - split; [tauto|]. split; [|destruct total; reflexivity].
    split; [discriminate | intros H; exfalso; tauto].
  - assert (~ (Qabs (ba - ka) < 0.01)%Q) as Hn
        by (intros H; apply Hlt in H; discriminate).
    split; [split; [discriminate | tauto]|].
    split; [tauto | destruct total; reflexivity].
Qed.

(** The matched amount is the bank side's even when the two sides differ. *)
Example summary_bank_side :
  let m := {| bankTransaction := scenario_b1;
              bookTransaction :=
                {| id := "k9"; date := 0; description := "x"; amount := 7%Q;
                   type := credit; category := None; reference := None;
                   matched_flag := None; matchId := None; metadata := None |};
              confidence := Num 0.8; matchMethod := fuzzy |} in
  (matchedAmount (calculateReconciliationSummary (fun t => t) scenario_account
                    [m] [] []) == -350)%Q.
Proof. reflexivity. Qed.

(** C9: the two summary functions agree on every input, and neither looks
    at its account argument. *)
Theorem generate_eq_calculate {T : Type} (tx : T -> Transaction)
    (account account' : AccountInfo) (matched : list (MatchedTransaction T))
    (unmatchedBank unmatchedBook : list T) :
  generateReconciliationSummary tx account matched unmatchedBank unmatchedBook
  = calculateReconciliationSummary tx account' matched unmatchedBank unmatchedBook.
Proof. reflexivity. Qed.

(** ** Array helpers *)

Lemma findIndex_Some {A : Type} (p : A -> bool) (arr : list A) (j : nat) :
  findIndex p arr = Some j ->
  exists x, arr !! j = Some x /\ p x = true
            /\ forall j' x', (j' < j)%nat -> arr !! j' = Some x' -> p x' = false.
Proof.
  revert j. induction arr as [|y arr IH]; intros j; simpl; [discriminate|].
  destruct (p y) eqn:Hy.
  - intros [= <-]. exists y. repeat split; [assumption|]. intros j' x' Hlt. lia.
  - destruct (findIndex p arr) as [j0|]; simpl; [|discriminate].
    intros [= <-]. destruct (IH j0 eq_refl) as (x & Hx & Hpx & Hbefore).
    exists x. repeat split; [assumption..|].
    intros [|j'] x' Hlt; simpl.
    + intros [= <-]. assumption.
    + apply Hbefore. lia.
Qed.

Lemma findIndex_None {A : Type} (p : A -> bool) (arr : list A) :
  findIndex p arr = None -> Forall (fun x => p x = false) arr.
Proof.
  induction arr as [|y arr IH]; simpl; [constructor|].
  destruct (p y) eqn:Hy; [discriminate|].
  destruct (findIndex p arr); simpl; [discriminate|].
  intros _. constructor; auto.
Qed.

Lemma findIndex_ext {A : Type} (p q : A -> bool) (arr : list A) :
  Forall (fun x => p x = q x) arr -> findIndex p arr = findIndex q arr.
Proof.
  induction 1 as [|x arr Hx _ IH]; simpl; [reflexivity|].
  rewrite Hx, IH. reflexivity.
Qed.

(** A descending loop whose body keeps an invariant indexed by the number
    of iterations left runs to its end and establishes the invariant at 0. *)
Lemma forDown_inv {St : Type} (body : nat -> St -> option St)
    (I : nat -> St -> Prop) :
  (forall i s, I (S i) s -> exists s', body i s = Some s' /\ I i s') ->
  forall n s, I n s -> exists s', forDown body n s = Some s' /\ I 0%nat s'.
Proof.
  intros Hbody. induction n as [|i IH]; intros s Hs; simpl.
  - exists s. split; [reflexivity | assumption].
  - destruct (Hbody i s Hs) as (s1 & -> & Hs1). simpl. apply IH, Hs1.
Qed.

(** ** The two passes keep the arrays related *)

Section MatcherFacts.
Context {T : Type} (tx : T -> Transaction).
Implicit Types (w : Working T) (m : MatchedTransaction T).

Lemma related_refl Q w : related Q w w.
Proof.
  unfold related. repeat split; try reflexivity.
  exists []. split; [symmetry; apply app_nil_r | constructor].
Qed.

Lemma related_removal Q i w0 w w' :
  related Q w0 w -> removal Q i w w' -> related Q w0 w'.
Proof.
  intros (Hbank & Hbook & Hsb & Hsk & new & Hnew & HQ) [-> | (j & m & Hi & Hj & Hm & ->)].
  { repeat split; try assumption. exists new. split; assumption. }
  unfold related. simpl. repeat split.
  - rewrite <- Hbank, map_app. simpl.
    rewrite (delete_Permutation _ _ _ Hi) at 2.
    rewrite <- !app_assoc. simpl. reflexivity.
  - rewrite <- Hbook, map_app. simpl.
    rewrite (delete_Permutation _ _ _ Hj) at 2.
    rewrite <- !app_assoc. simpl. reflexivity.
  - etransitivity; [apply sublist_delete | exact Hsb].
  - etransitivity; [apply sublist_delete | exact Hsk].
  - exists (new ++ [m]). split.
    + rewrite Hnew, app_assoc. reflexivity.
    + apply Forall_app. split; [assumption | constructor; [assumption | constructor]].
Qed.

Lemma related_weaken (Q Q' : MatchedTransaction T -> Prop) w0 w :
  (forall m, Q m -> Q' m) -> related Q w0 w -> related Q' w0 w.
Proof.
  intros HQ (Hbank & Hbook & Hsb & Hsk & new & Hnew & Hall).
  repeat split; try assumption. exists new. split; [assumption|].
  eapply Forall_impl; eauto.
Qed.

Lemma related_trans Q w0 w1 w2 :
  related Q w0 w1 -> related Q w1 w2 -> related Q w0 w2.
Proof.
  intros (Hb1 & Hk1 & Hsb1 & Hsk1 & new1 & Hn1 & HQ1)
         (Hb2 & Hk2 & Hsb2 & Hsk2 & new2 & Hn2 & HQ2).
  repeat split.
  - etransitivity; eassumption.
  - etransitivity; eassumption.
  - etransitivity; eassumption.
  - etransitivity; eassumption.
  - exists (new1 ++ new2). split.
    + rewrite Hn2, Hn1, app_assoc. reflexivity.
    + apply Forall_app. split; assumption.
Qed.

Lemma removal_length Q i w w' :
  removal Q i w w' -> (i < length (w_bank w))%nat -> (i <= length (w_bank w'))%nat.
Proof.
  intros [-> | (j & m & Hi & _ & _ & ->)] Hlt; [lia|].
  simpl. rewrite length_delete by eauto. lia.
Qed.

(** *** First pass *)

Lemma exactBody_spec i w bankTx :
  w_bank w !! i = Some bankTx ->
  (Forall (fun bookTx => exactKey (tx bookTx) (tx bankTx) = false) (w_book w)
   /\ exactBody tx i w = Some w)
  \/ exists j bookTx,
       w_book w !! j = Some bookTx
       /\ exactKey (tx bookTx) (tx bankTx) = true
       /\ (forall j' x', (j' < j)%nat -> w_book w !! j' = Some x' ->
                         exactKey (tx x') (tx bankTx) = false)
       /\ exactBody tx i w
          = Some {| w_bank := delete i (w_bank w);
                    w_book := delete j (w_book w);
                    w_matched :=
                      w_matched w ++ [ {| bankTransaction := bankTx;
                                          bookTransaction := bookTx;
                                          confidence := Num 1;
                                          matchMethod := exact |} ] |}.
Proof.
  intros Hi. unfold exactBody. rewrite Hi. simpl.
  destruct (findIndex _ (w_book w)) as [j|] eqn:Hfind.
  - right. destruct (findIndex_Some _ _ _ Hfind) as (bookTx & Hj & Hp & Hbefore).
    exists j, bookTx. rewrite Hj. simpl. repeat split; assumption.
  - left. split; [|reflexivity]. apply (findIndex_None _ _ Hfind).
Qed.

Lemma exactBody_removal i w :
  (i < length (w_bank w))%nat ->
  exists w', exactBody tx i w = Some w' /\ removal (exactEntry tx) i w w'.
Proof.
  intros Hlt. destruct (lookup_lt_is_Some_2 _ _ Hlt) as [bankTx Hi].
  destruct (exactBody_spec i w bankTx Hi)
    as [[_ ->] | (j & bookTx & Hj & Hkey & _ & ->)].
  - exists w. split; [reflexivity | left; reflexivity].
  - eexists. split; [reflexivity|]. right.
    exists j, {| bankTransaction := bankTx; bookTransaction := bookTx;
                 confidence := Num 1; matchMethod := exact |}.
    repeat split; assumption.
Qed.

Lemma exactBody_cleared i w w' :
  (i < length (w_bank w))%nat ->
  exactBody tx i w = Some w' -> cleared tx (S i) w -> cleared tx i w'.
Proof.
  intros Hlt Hbody Hcl. destruct (lookup_lt_is_Some_2 _ _ Hlt) as [bankTx Hi].
  destruct (exactBody_spec i w bankTx Hi)
    as [[Hnone Hw] | (j & bookTx & Hj & Hkey & _ & Hw)];
    rewrite Hw in Hbody; injection Hbody as <-.
  - intros i' b k Hge Hb Hk.
    destruct (decide (i' = i)) as [-> | Hne].
    + rewrite Hi in Hb. injection Hb as <-.
      rewrite Forall_forall in Hnone. apply Hnone, Hk.
    + apply (Hcl i' b k); [lia | assumption..].
  - intros i' b k Hge Hb Hk. simpl in Hb, Hk.
    rewrite list_lookup_delete_ge in Hb by lia.
    apply (Hcl (S i') b k); [lia | assumption |].
    eapply list_elem_of_delete_inv, Hk.
Qed.

Lemma findExactMatches_spec w :
  exists w', findExactMatches tx w = Some w'
             /\ related (exactEntry tx) w w' /\ cleared tx 0 w'.
Proof.
  unfold findExactMatches.
  destruct (forDown_inv (exactBody tx)
              (fun n w' => (n <= length (w_bank w'))%nat
                           /\ related (exactEntry tx) w w' /\ cleared tx n w'))
    with (n := length (w_bank w)) (s := w) as (w' & Hrun & _ & Hrel & Hcl).
  - intros i w1 (Hlen & Hrel & Hcl).
    destruct (exactBody_removal i w1) as (w2 & Hbody & Hrem); [lia|].
    exists w2. split; [assumption|]. split; [|split].
    + eapply removal_length; [eassumption | lia].
    + eapply related_removal; eassumption.
    + eapply exactBody_cleared; [|eassumption..]. lia.
  - split; [lia|]. split; [apply related_refl|].
    intros i b k Hge Hb _. apply lookup_lt_Some in Hb. lia.
  - exists w'. auto.
Qed.

(** *** Second pass *)

Lemma num_le_refl_ge (c thr : number) : num_ge c thr = true -> num_le c c = true.
Proof.
  destruct c as [q|], thr as [t|]; simpl; try discriminate.
  intros _. apply Qle_bool_iff. lra.
Qed.

Lemma num_le_lt_trans (a b c : number) :
  num_le a b = true -> num_lt b c = true ->
  num_le a c = true /\ num_lt a c = true.
Proof.
  destruct a as [x|], b as [y|], c as [z|]; simpl; try discriminate.
  rewrite !Qle_bool_iff, !Qlt_bool_iff. intros. split; lra.
Qed.

Lemma num_not_gt_le (a b thr : number) :
  num_ge a thr = true -> num_ge b thr = true ->
  num_gt a b = false -> num_le a b = true.
Proof.
  destruct a as [x|], b as [y|], thr as [t|]; simpl; try discriminate.
  intros _ _ H. unfold Qlt_bool in H. apply negb_false_iff in H. exact H.
Qed.

Lemma bestOf_step (conf : T -> number) (thr : number) (seen : list T) (x : T)
    (best : option BestMatch) :
  bestOf conf thr seen best ->
  bestOf conf thr (seen ++ [x])
    (if num_ge (conf x) thr
        && match best with
           | None => true
           | Some b => num_gt (conf x) (best_confidence b)
           end
     then Some {| index := length seen; best_confidence := conf x |}
     else best).
Proof.
  intros Hbest.
  assert (forall j' x', (seen ++ [x]) !! j' = Some x' ->
            ((j' < length seen)%nat /\ seen !! j' = Some x')
            \/ (j' = length seen /\ x' = x)) as Hsplit.
  { intros j' x' H. apply lookup_app_Some in H as [H | [Hge H]].
    - left. split; [eapply lookup_lt_Some; eassumption | assumption].
    - right. destruct (j' - length seen)%nat as [|d] eqn:Hd; simpl in H.
      + injection H as <-. split; [lia | reflexivity].
      + rewrite lookup_nil in H. discriminate. }
  destruct (num_ge (conf x) thr) eqn:Hge; simpl.
  - destruct best as [b|]; simpl in *.
    + destruct Hbest as (xb & Hxb & Hcb & Hgeb & Hall).
      rewrite Hcb.
      destruct (num_gt (conf x) (conf xb)) eqn:Hgt.
      * exists x. simpl. split; [apply list_lookup_middle; reflexivity|].
        split; [reflexivity|]. split; [assumption|].
        intros j' x' Hj' Hge'.
        destruct (Hsplit _ _ Hj') as [[Hlt Hs] | [-> ->]].
        -- destruct (Hall _ _ Hs Hge') as [Hle _].
           destruct (num_le_lt_trans _ _ _ Hle Hgt). auto.
        -- split; [eapply num_le_refl_ge; eassumption | lia].
      * exists xb. split; [apply lookup_app_l_Some; assumption|].
        split; [assumption|]. split; [assumption|].
        intros j' x' Hj' Hge'.
        destruct (Hsplit _ _ Hj') as [[Hlt Hs] | [-> ->]].
        -- apply Hall; assumption.
        -- split; [eapply num_not_gt_le; eassumption|].
           apply lookup_lt_Some in Hxb. lia.
    + exists x. simpl. split; [apply list_lookup_middle; reflexivity|].
      split; [reflexivity|]. split; [assumption|].
      intros j' x' Hj' Hge'.
      destruct (Hsplit _ _ Hj') as [[Hlt Hs] | [-> ->]].
      * rewrite Hbest in Hge'; [discriminate|].
        apply list_elem_of_lookup. eauto.
      * split; [eapply num_le_refl_ge; eassumption | lia].
  - destruct best as [b|]; simpl in *.
    + destruct Hbest as (xb & Hxb & Hcb & Hgeb & Hall).
      exists xb. split; [apply lookup_app_l_Some; assumption|].
      split; [assumption|]. split; [assumption|].
      intros j' x' Hj' Hge'.
      destruct (Hsplit _ _ Hj') as [[Hlt Hs] | [-> ->]].
      * apply Hall; assumption.
      * congruence.
    + intros x' Hin. apply elem_of_app in Hin as [Hin | Hin].
      * apply Hbest, Hin.
      * apply list_elem_of_singleton in Hin as ->. assumption.
Qed.

Lemma scanBook_bestOf bankTx settings (books seen : list T)
    (best : option BestMatch) :
  let conf := fun bookTx =>
    calculateMatchConfidence (tx bankTx) (tx bookTx) settings in
  let thr := Num (s_fuzzyThreshold settings) in
  bestOf conf thr seen best ->
  bestOf conf thr (seen ++ books)
         (scanBook tx bankTx settings (length seen) books best).
Proof.
  intros conf thr. revert seen best.
  induction books as [|x books IH]; intros seen best Hbest; simpl.
  - rewrite app_nil_r. assumption.
  - apply (bestOf_step conf thr seen x) in Hbest.
    apply IH in Hbest. rewrite length_app in Hbest. simpl in Hbest.
    rewrite Nat.add_1_r, <- app_assoc in Hbest. exact Hbest.
Qed.

Lemma fuzzyBody_spec settings i w bankTx :
  let conf := fun bookTx =>
    calculateMatchConfidence (tx bankTx) (tx bookTx) settings in
  let thr := Num (s_fuzzyThreshold settings) in
  w_bank w !! i = Some bankTx ->
  (bestOf conf thr (w_book w) None /\ fuzzyBody tx settings i w = Some w)
  \/ exists j bookTx,
       bestOf conf thr (w_book w)
              (Some {| index := j; best_confidence := conf bookTx |})
       /\ w_book w !! j = Some bookTx
       /\ fuzzyBody tx settings i w
          = Some {| w_bank := delete i (w_bank w);
                    w_book := delete j (w_book w);
                    w_matched :=
                      w_matched w ++ [ {| bankTransaction := bankTx;
                                          bookTransaction := bookTx;
                                          confidence := conf bookTx;
                                          matchMethod := fuzzy |} ] |}.
Proof.
  intros conf thr Hi. unfold fuzzyBody. rewrite Hi. simpl.
  pose proof (scanBook_bestOf bankTx settings (w_book w) [] None) as Hscan.
  simpl in Hscan. fold conf thr in Hscan.
  specialize (Hscan (fun x Hx => False_ind _ (not_elem_of_nil x Hx))).
  destruct (scanBook tx bankTx settings 0 (w_book w) None) as [[j c]|].
  - right. pose proof Hscan as (bookTx & Hj & Hc & _). simpl in Hj, Hc.
    subst c. exists j, bookTx. split; [exact Hscan|]. split; [exact Hj|].
    simpl. rewrite Hj. reflexivity.
  - left. split; [assumption | reflexivity].
Qed.

Lemma fuzzyBody_removal settings i w :
  (i < length (w_bank w))%nat ->
  exists w', fuzzyBody tx settings i w = Some w'
             /\ removal (fuzzyEntry tx settings) i w w'.
Proof.
  intros Hlt. destruct (lookup_lt_is_Some_2 _ _ Hlt) as [bankTx Hi].
  destruct (fuzzyBody_spec settings i w bankTx Hi)
    as [[_ ->] | (j & bookTx & Hbest & Hj & ->)].
  - exists w. split; [reflexivity | left; reflexivity].
  - eexists. split; [reflexivity|]. right.
    exists j, {| bankTransaction := bankTx; bookTransaction := bookTx;
                 confidence := calculateMatchConfidence (tx bankTx) (tx bookTx)
                                 settings;
                 matchMethod := fuzzy |}.
    destruct Hbest as (x & Hx & Hc & Hge & _). simpl in Hx, Hc.
    rewrite Hj in Hx. injection Hx as <-.
    repeat split; assumption.
Qed.

Lemma findFuzzyMatches_spec settings w :
  exists w', findFuzzyMatches tx settings w = Some w'
             /\ related (fuzzyEntry tx settings) w w'.
Proof.
  unfold findFuzzyMatches.
  destruct (forDown_inv (fuzzyBody tx settings)
              (fun n w' => (n <= length (w_bank w'))%nat
                           /\ related (fuzzyEntry tx settings) w w'))
    with (n := length (w_bank w)) (s := w) as (w' & Hrun & _ & Hrel).
  - intros i w1 (Hlen & Hrel).
    destruct (fuzzyBody_removal settings i w1) as (w2 & Hbody & Hrem); [lia|].
    exists w2. split; [assumption|]. split.
    + eapply removal_length; [eassumption | lia].
    + eapply related_removal; eassumption.
  - split; [lia | apply related_refl].
  - exists w'. auto.
Qed.

(** *** Both passes *)

Lemma matchTransactions_spec (bank book : list T) (settings : Settings) :
  exists w1 w2,
    (if s_autoMatchExact settings
     then findExactMatches tx (start bank book) = Some w1 /\ cleared tx 0 w1
     else w1 = start bank book)
    /\ related (exactEntry tx) (start bank book) w1
    /\ related (fuzzyEntry tx settings) w1 w2
    /\ matchTransactions tx bank book settings = Some (outcome w2).
Proof.
  unfold matchTransactions. fold (start bank book).
  destruct (s_autoMatchExact settings).
  - destruct (findExactMatches_spec (start bank book)) as (w1 & H1 & Hrel1 & Hcl).
    rewrite H1. simpl.
    destruct (s_fuzzyMatching settings).
    + destruct (findFuzzyMatches_spec settings w1) as (w2 & H2 & Hrel2).
      rewrite H2. simpl. exists w1, w2. auto.
    + exists w1, w1. simpl.
      split; [split; [reflexivity | assumption]|]. split; [assumption|].
      split; [apply related_refl | reflexivity].
  - simpl. destruct (s_fuzzyMatching settings).
    + destruct (findFuzzyMatches_spec settings (start bank book)) as (w2 & H2 & Hrel2).
      rewrite H2. simpl. exists (start bank book), w2.
      split; [reflexivity|]. split; [apply related_refl|].
      split; [assumption | reflexivity].
    + exists (start bank book), (start bank book). simpl.
      split; [reflexivity|]. split; [apply related_refl|].
      split; [apply related_refl | reflexivity].
Qed.

Lemma matchTransactions_related (bank book : list T) (settings : Settings) :
  exists w,
    matchTransactions tx bank book settings = Some (outcome w)
    /\ related (fun m => exactEntry tx m \/ fuzzyEntry tx settings m)
               (start bank book) w.
Proof.
  destruct (matchTransactions_spec bank book settings)
    as (w1 & w2 & _ & Hrel1 & Hrel2 & Hrun).
  exists w2. split; [assumption|].
  eapply related_trans; eapply related_weaken; try eassumption; simpl; auto.
Qed.

End MatcherFacts.

(** ** The matcher's contract *)

(** C1: the output partitions the input.  The bank sides of the matched
    pairs followed by [unmatchedBank] are a rearrangement of the input bank
    list, occurrence for occurrence, and likewise for the book list; so an
    input without repetition yields an output without repetition: no
    transaction is in two pairs, or in a pair and unmatched. *)
Theorem matchTransactions_partition {T : Type} (tx : T -> Transaction)
    (bank book : list T) (settings : Settings) :
  exists r,
    matchTransactions tx bank book settings = Some r
    /\ bank ≡ₚ map bankTransaction (o_matched r) ++ o_unmatchedBank r
    /\ book ≡ₚ map bookTransaction (o_matched r) ++ o_unmatchedBook r
    /\ (NoDup bank ->
        NoDup (map bankTransaction (o_matched r) ++ o_unmatchedBank r))
    /\ (NoDup book ->
        NoDup (map bookTransaction (o_matched r) ++ o_unmatchedBook r)).
Proof.
  destruct (matchTransactions_related tx bank book settings)
    as (w & Hrun & Hbank & Hbook & _).
  simpl in Hbank, Hbook.
  exists (outcome w). split; [assumption|]. simpl.
  split; [symmetry; assumption|]. split; [symmetry; assumption|].
  split; intros Hnd; [rewrite Hbank | rewrite Hbook]; assumption.
Qed.

(** C10: what stays unmatched keeps its input order. *)
Theorem matchTransactions_unmatched_order {T : Type} (tx : T -> Transaction)
    (bank book : list T) (settings : Settings) :
  exists r,
    matchTransactions tx bank book settings = Some r
    /\ sublist (o_unmatchedBank r) bank
    /\ sublist (o_unmatchedBook r) book.
Proof.
  destruct (matchTransactions_related tx bank book settings)
    as (w & Hrun & _ & _ & Hsb & Hsk & _).
  exists (outcome w). auto.
Qed.

Lemma fuzzyEntry_bounds {T : Type} (tx : T -> Transaction) (settings : Settings)
    (m : MatchedTransaction T) :
  fuzzyEntry tx settings m ->
  exists q, confidence m = Num q /\ (s_fuzzyThreshold settings <= q <= 1)%Q.
Proof.
  intros (_ & Hc & Hge).
  destruct (num_ge_Num _ _ Hge) as (q & Hq & Hle).
  exists q. split; [assumption|]. split; [assumption|].
  rewrite Hq in Hc. symmetry in Hc.
  apply calculateMatchConfidence_range in Hc. tauto.
Qed.

Lemma matched_fuzzy_bounds {T : Type} (tx : T -> Transaction)
    (bank book : list T) (settings : Settings) :
  exists r,
    matchTransactions tx bank book settings = Some r
    /\ Forall (fun m => matchMethod m = fuzzy ->
                        exists q, confidence m = Num q
                                  /\ (s_fuzzyThreshold settings <= q <= 1)%Q)
              (o_matched r).
Proof.
  destruct (matchTransactions_related tx bank book settings)
    as (w & Hrun & _ & _ & _ & _ & new & Hnew & Hall).
  exists (outcome w). split; [assumption|]. simpl in *. subst.
  eapply Forall_impl; [exact Hall|]. simpl.
  intros m [(He & _) | Hf] Hm; [congruence|].
  eapply fuzzyEntry_bounds; eassumption.
Qed.

(** C2: every fuzzy entry has a confidence that is a number between the
    threshold in force and 1, whatever the settings handed to the matcher,
    and in particular for the settings that [processReconciliation] merges
    from the caller's and the defaults. *)
Theorem fuzzy_confidence_bounds {T : Type} (tx : T -> Transaction) :
  (forall (bank book : list T) (settings : Settings),
      exists r,
        matchTransactions tx bank book settings = Some r
        /\ Forall (fun m => matchMethod m = fuzzy ->
                            exists q, confidence m = Num q
                                      /\ (s_fuzzyThreshold settings <= q <= 1)%Q)
                  (o_matched r))
  /\ (forall data : ReconciliationData T,
        exists r,
          processReconciliation tx data = Some r
          /\ Forall (fun m => matchMethod m = fuzzy ->
                              exists q,
                                confidence m = Num q
                                /\ (s_fuzzyThreshold (mergeSettings (settings data))
                                    <= q <= 1)%Q)
                    (matched r)).
Proof.
  split.
  - apply matched_fuzzy_bounds.
  - intros data. unfold processReconciliation.
    destruct (matched_fuzzy_bounds tx (bankTransactions data)
                (bookTransactions data) (mergeSettings (settings data)))
      as (r & -> & Hall).
    simpl. eexists. split; [reflexivity|]. exact Hall.
Qed.

Lemma elem_of_map_inv {A B : Type} (f : A -> B) (l : list A) (y : B) :
  y ∈ map f l -> exists x, x ∈ l /\ f x = y.
Proof.
  rewrite list_elem_of_In, in_map_iff. intros (x & Hx & Hin).
  exists x. split; [apply list_elem_of_In; assumption | assumption].
Qed.

Lemma elem_of_map_intro {A B : Type} (f : A -> B) (l : list A) (x : A) :
  x ∈ l -> f x ∈ map f l.
Proof. rewrite !list_elem_of_In. apply in_map. Qed.

(** After the first pass, of a bank and a book transaction that agree on
    amount, date and reference at least one is in a pair of that pass, and
    the pairs of the first pass stay in the output. *)
Lemma exact_pass_covers {T : Type} (tx : T -> Transaction)
    (bank book : list T) (settings : Settings) (b k : T) :
  s_autoMatchExact settings = true ->
  b ∈ bank -> k ∈ book -> exactKey (tx k) (tx b) = true ->
  exists w1 r,
    findExactMatches tx (start bank book) = Some w1
    /\ matchTransactions tx bank book settings = Some r
    /\ (forall m, m ∈ w_matched w1 ->
                  m ∈ o_matched r /\ exactEntry tx m
                  /\ bankTransaction m ∈ bank /\ bookTransaction m ∈ book)
    /\ exists m, m ∈ w_matched w1
                 /\ (bankTransaction m = b \/ bookTransaction m = k).
Proof.
  intros Hauto Hb Hk Hkey.
  destruct (matchTransactions_spec tx bank book settings)
    as (w1 & w2 & H1 & Hrel1 & Hrel2 & Hrun).
  rewrite Hauto in H1. destruct H1 as [H1 Hcl].
  destruct Hrel1 as (Hbank1 & Hbook1 & _ & _ & new1 & Hnew1 & Hall1).
  destruct Hrel2 as (_ & _ & _ & _ & new2 & Hnew2 & _).
  simpl in Hbank1, Hbook1, Hnew1. subst new1.
  exists w1, (outcome w2). split; [assumption|]. split; [assumption|]. split.
  - intros m Hm. split; [|split; [|split]].
    + simpl. rewrite Hnew2. apply elem_of_app. left. assumption.
    + rewrite Forall_forall in Hall1. apply Hall1, Hm.
    + rewrite <- Hbank1. apply elem_of_app. left.
      apply elem_of_map_intro with (f := bankTransaction), Hm.
    + rewrite <- Hbook1. apply elem_of_app. left.
      apply elem_of_map_intro with (f := bookTransaction), Hm.
  - rewrite <- Hbank1 in Hb. rewrite <- Hbook1 in Hk.
    apply elem_of_app in Hb as [Hb | Hb].
    { apply elem_of_map_inv in Hb as (m & Hm & Hmb). exists m. auto. }
    apply elem_of_app in Hk as [Hk | Hk].
    { apply elem_of_map_inv in Hk as (m & Hm & Hmk). exists m. auto. }
    exfalso. apply list_elem_of_lookup in Hb as [i Hi].
    rewrite (Hcl i b k) in Hkey; [discriminate | lia | assumption..].
Qed.

(** C3 (as stated) fails: two bank transactions and one book transaction
    agree on amount, date and reference; the pass starts from the last bank
    transaction, which takes the book transaction, and the first bank
    transaction, whose fields also equal the book transaction's, stays
    unmatched. *)
Lemma exact_pair_counterexample :
  ~ (forall (bank book : list Transaction) (settings : Settings)
            (b k : Transaction),
        s_autoMatchExact settings = true ->
        b ∈ bank -> k ∈ book -> exactKey k b = true ->
        exists r,
          matchTransactions (fun t => t) bank book settings = Some r
          /\ exists m, m ∈ o_matched r
                       /\ bankTransaction m = b /\ bookTransaction m = k
                       /\ confidence m = Num 1 /\ matchMethod m = exact).
Proof.
  intros H.
  destruct (H [twin_b1; twin_b2] [twin_k1] defaultSettings twin_b1 twin_k1)
    as (r & Hr & m & Hm & Hb & _).
  - reflexivity.
  - apply list_elem_of_here.
  - apply list_elem_of_here.
  - reflexivity.
  - vm_compute in Hr. injection Hr as <-. simpl in Hm.
    apply list_elem_of_singleton in Hm. subst m. simpl in Hb. discriminate.
Qed.

Example twins_outcome :
  matchTransactions (fun t => t) [twin_b1; twin_b2] [twin_k1] defaultSettings
  = Some {| o_matched := [ {| bankTransaction := twin_b2;
                              bookTransaction := twin_k1;
                              confidence := Num 1;
                              matchMethod := exact |} ];
            o_unmatchedBank := [twin_b1];
            o_unmatchedBook := [] |}.
Proof. vm_compute. reflexivity. Qed.

(** C3 (amended): with [autoMatchExact] enabled and a bank and a book
    transaction that agree on amount, date and reference, the first pass
    pairs at least one of the two with a counterpart that agrees with it on
    the three fields, with confidence 1 and method [exact], and the pair
    stays in the output whether or not [fuzzyMatching] is enabled; when no
    other bank transaction agrees with the book transaction and no other
    book transaction agrees with the bank transaction, the two are paired
    with each other. *)
Theorem exact_pair_matched {T : Type} (tx : T -> Transaction)
    (bank book : list T) (settings : Settings) (b k : T) :
  s_autoMatchExact settings = true ->
  b ∈ bank -> k ∈ book -> exactKey (tx k) (tx b) = true ->
  exists w1 r,
    findExactMatches tx (start bank book) = Some w1
    /\ matchTransactions tx bank book settings = Some r
    /\ (exists m,
          m ∈ w_matched w1 /\ m ∈ o_matched r
          /\ (bankTransaction m = b \/ bookTransaction m = k)
          /\ exactKey (tx (bookTransaction m)) (tx (bankTransaction m)) = true
          /\ confidence m = Num 1 /\ matchMethod m = exact)
    /\ ((forall b', b' ∈ bank -> exactKey (tx k) (tx b') = true -> b' = b) ->
        (forall k', k' ∈ book -> exactKey (tx k') (tx b) = true -> k' = k) ->
        exists m,
          m ∈ w_matched w1 /\ m ∈ o_matched r
          /\ bankTransaction m = b /\ bookTransaction m = k
          /\ confidence m = Num 1 /\ matchMethod m = exact).
Proof.
  intros Hauto Hb Hk Hkey.
  destruct (exact_pass_covers tx bank book settings b k Hauto Hb Hk Hkey)
    as (w1 & r & H1 & Hrun & Hall & m & Hm & Hside).
  destruct (Hall m Hm) as (Hout & (Hmeth & Hconf & Hmkey) & Hmb & Hmk).
  exists w1, r. split; [assumption|]. split; [assumption|]. split.
  - exists m. repeat split; assumption.
  - intros Hub Huk. exists m.
    split; [assumption|]. split; [assumption|].
    destruct Hside as [Hs | Hs].
    + split; [assumption|]. split; [|split; assumption].
      apply Huk; [assumption|]. rewrite <- Hs. assumption.
    + split; [|split; [assumption | split; assumption]].
      apply Hub; [assumption|]. rewrite <- Hs. assumption.
Qed.

Lemma exact_pair_matched_witness :
  exists w1 r,
    findExactMatches (fun t => t) (start [twin_b1; scenario_b1] [scenario_k1; twin_k1])
    = Some w1
    /\ matchTransactions (fun t => t) [twin_b1; scenario_b1] [scenario_k1; twin_k1]
                         defaultSettings = Some r
    /\ exists m, m ∈ w_matched w1 /\ m ∈ o_matched r
                 /\ bankTransaction m = twin_b1 /\ bookTransaction m = twin_k1
                 /\ confidence m = Num 1 /\ matchMethod m = exact.
Proof.
  destruct (exact_pair_matched (fun t => t) [twin_b1; scenario_b1]
              [scenario_k1; twin_k1] defaultSettings twin_b1 twin_k1)
    as (w1 & r & H1 & Hr & _ & Hpair).
  - reflexivity.
  - apply list_elem_of_here.
  - apply list_elem_of_further, list_elem_of_here.
  - reflexivity.
  - exists w1, r. split; [exact H1|]. split; [exact Hr|]. apply Hpair.
    + intros b' Hb' Hkey.
      apply elem_of_cons in Hb' as [-> | Hb']; [reflexivity|].
      apply list_elem_of_singleton in Hb' as ->. vm_compute in Hkey. discriminate.
    + intros k' Hk' Hkey.
      apply elem_of_cons in Hk' as [-> | Hk'].
      * vm_compute in Hkey. discriminate.
      * apply list_elem_of_singleton in Hk' as ->. reflexivity.
Defined.

(** C4: the second pass runs from the last bank index down; at a bank
    transaction either no remaining book transaction reaches the threshold
    and nothing changes, or the book transaction taken reaches it, no
    candidate that reaches it has a higher confidence, and every such
    candidate at a lower index has a strictly lower confidence (so of the
    candidates at the maximum the first is taken); the pair is recorded
    with that confidence and both are removed. *)
Theorem fuzzy_selects_first_best {T : Type} (tx : T -> Transaction)
    (settings : Settings) (i : nat) (w : Working T) (bankTx : T) :
  w_bank w !! i = Some bankTx ->
  let conf := fun bookTx =>
    calculateMatchConfidence (tx bankTx) (tx bookTx) settings in
  let thr := Num (s_fuzzyThreshold settings) in
  forDown (fuzzyBody tx settings) (S i) w
  = (fuzzyBody tx settings i w ≫= forDown (fuzzyBody tx settings) i)
  /\ (((forall bookTx, bookTx ∈ w_book w -> num_ge (conf bookTx) thr = false)
       /\ fuzzyBody tx settings i w = Some w)
      \/ exists j bookTx,
           w_book w !! j = Some bookTx
           /\ num_ge (conf bookTx) thr = true
           /\ (forall j' bookTx',
                  w_book w !! j' = Some bookTx' ->
                  num_ge (conf bookTx') thr = true ->
                  num_le (conf bookTx') (conf bookTx) = true
                  /\ ((j' < j)%nat -> num_lt (conf bookTx') (conf bookTx) = true))
           /\ fuzzyBody tx settings i w
              = Some {| w_bank := delete i (w_bank w);
                        w_book := delete j (w_book w);
                        w_matched :=
                          w_matched w ++ [ {| bankTransaction := bankTx;
                                              bookTransaction := bookTx;
                                              confidence := conf bookTx;
                                              matchMethod := fuzzy |} ] |}).
Proof.
  intros Hi conf thr. split; [reflexivity|].
  destruct (fuzzyBody_spec tx settings i w bankTx Hi)
    as [[Hnone Hrun] | (j & bookTx & Hbest & Hj & Hrun)].
  - left. split; assumption.
  - right. exists j, bookTx.
    destruct Hbest as (x & Hx & _ & Hge & Hall). simpl in Hx.
    rewrite Hj in Hx. injection Hx as <-.
    repeat split; try assumption; apply (Hall _ _ H H0).
Qed.


Lemma fuzzy_selects_first_best_witness :
  fuzzyBody (fun t => t) defaultSettings 0
            (start [twin_b1] [twin_late; twin_k1; twin_b2])
  = Some {| w_bank := [];
            w_book := [twin_late; twin_b2];
            w_matched := [ {| bankTransaction := twin_b1;
                              bookTransaction := twin_k1;
                              confidence :=
                                calculateMatchConfidence twin_b1 twin_k1
                                                         defaultSettings;
                              matchMethod := fuzzy |} ] |}.
Proof.
  assert (num_ge (calculateMatchConfidence twin_b1 twin_k1 defaultSettings)
                 (Num (s_fuzzyThreshold defaultSettings)) = true) as Hk1
      by (vm_compute; reflexivity).
  pose proof (fuzzy_selects_first_best (fun t => t) defaultSettings 0
                (start [twin_b1] [twin_late; twin_k1; twin_b2]) twin_b1 eq_refl)
    as H.
  destruct H as [_ [[Hnone _] | (j & bookTx & Hj & Hge & Hall & Hrun)]].
  - pose proof (Hnone twin_k1 (list_elem_of_further _ _ _ (list_elem_of_here _ _)))
      as Hno.
    cbv beta in Hno. rewrite Hk1 in Hno. discriminate Hno.
  - pose proof (Hall 1%nat twin_k1 eq_refl Hk1) as [Hle1 Hlt1].
    destruct j as [|[|[|j]]].
    + injection Hj as <-. vm_compute in Hle1. discriminate Hle1.
    + injection Hj as <-. exact Hrun.
    + injection Hj as <-. specialize (Hlt1 (Nat.lt_succ_diag_r 1)).
      vm_compute in Hlt1. discriminate Hlt1.
    + discriminate Hj.
Defined.

(** * The store model refines part one *)

(** ** Running the array operations *)

Lemma run_bind {A B : Type} (m : Imp.M A) (f : A -> Imp.M B) (h : Imp.heap) :
  (m ≫= f) h = match m h with
               | Some (x, h') => f x h'
               | None => None
               end.
Proof. reflexivity. Qed.

Lemma run_readArray (h : Imp.heap) (r : Imp.loc) (elems : list Imp.loc) :
  h !! r = Some (Imp.OArray elems) -> Imp.readArray r h = Some (elems, h).
Proof. intros H. unfold Imp.readArray. rewrite H. reflexivity. Qed.

Lemma run_writeArray (h : Imp.heap) (r : Imp.loc) (old elems : list Imp.loc) :
  h !! r = Some (Imp.OArray old) ->
  Imp.writeArray r elems h = Some (tt, <[r := Imp.OArray elems]> h).
Proof. intros H. unfold Imp.writeArray. rewrite H. reflexivity. Qed.

Lemma run_arrayLength (h : Imp.heap) (r : Imp.loc) (elems : list Imp.loc) :
  h !! r = Some (Imp.OArray elems) ->
  Imp.arrayLength r h = Some (length elems, h).
Proof.
  intros H. unfold Imp.arrayLength. rewrite run_bind, (run_readArray _ _ _ H).
  reflexivity.
Qed.

Lemma run_at (h : Imp.heap) (r : Imp.loc) (elems : list Imp.loc) (i : nat)
    (x : Imp.loc) :
  h !! r = Some (Imp.OArray elems) -> elems !! i = Some x ->
  Imp.at_ r i h = Some (x, h).
Proof.
  intros H Hi. unfold Imp.at_. rewrite run_bind, (run_readArray _ _ _ H).
  unfold Imp.liftOpt. rewrite Hi. reflexivity.
Qed.

Lemma run_splice1 (h : Imp.heap) (r : Imp.loc) (elems : list Imp.loc) (i : nat) :
  h !! r = Some (Imp.OArray elems) ->
  Imp.splice1 r i h = Some (tt, <[r := Imp.OArray (delete i elems)]> h).
Proof.
  intros H. unfold Imp.splice1. rewrite run_bind, (run_readArray _ _ _ H).
  apply (run_writeArray _ _ _ _ H).
Qed.

Lemma run_push (h : Imp.heap) (r : Imp.loc) (elems : list Imp.loc) (x : Imp.loc) :
  h !! r = Some (Imp.OArray elems) ->
  Imp.push r x h = Some (tt, <[r := Imp.OArray (elems ++ [x])]> h).
Proof.
  intros H. unfold Imp.push. rewrite run_bind, (run_readArray _ _ _ H).
  apply (run_writeArray _ _ _ _ H).
Qed.

Lemma run_spread (h : Imp.heap) (r : Imp.loc) (elems : list Imp.loc) :
  h !! r = Some (Imp.OArray elems) ->
  Imp.spread r h
  = Some (fresh (dom h), <[fresh (dom h) := Imp.OArray elems]> h).
Proof.
  intros H. unfold Imp.spread. rewrite run_bind, (run_readArray _ _ _ H).
  reflexivity.
Qed.

Lemma fresh_None (h : Imp.heap) : h !! fresh (dom h) = None.
Proof. apply not_elem_of_dom, is_fresh. Qed.

Lemma readTx_weaken (h0 h : Imp.heap) (l : Imp.loc) :
  h0 ⊆ h -> isTx h0 l -> Imp.readTx h l = Imp.readTx h0 l.
Proof.
  intros Hsub [t Ht]. unfold Imp.readTx.
  rewrite (lookup_weaken _ _ _ _ Ht Hsub), Ht. reflexivity.
Qed.

(** ** One pair moved *)

(** The four writes that end an iteration which found a counterpart: the
    new entry, [matched.push], and the two [splice]s. *)
Lemma run_commit (h0 : Imp.heap) (rb rk rm : Imp.loc) (h : Imp.heap)
    (w : Working Imp.loc) (i j : nat) (m : MatchedTransaction Imp.loc) :
  sim h0 rb rk rm h w ->
  w_bank w !! i = Some (bankTransaction m) ->
  w_book w !! j = Some (bookTransaction m) ->
  exists h',
    (l ← Imp.alloc (Imp.OMatched m);
     Imp.push rm l;; Imp.splice1 rb i;; Imp.splice1 rk j) h = Some (tt, h')
    /\ sim h0 rb rk rm h'
           {| w_bank := delete i (w_bank w);
              w_book := delete j (w_book w);
              w_matched := w_matched w ++ [m] |}.
Proof.
  intros [Hsub Hnb Hnk Hnm Hbk Hbm Hkm Hb Hk (ms & Hm & Hms) Htb Htk] Hi Hj.
  pose proof (fresh_None h) as Hl. set (l := fresh (dom h)) in *.
  assert (l <> rb /\ l <> rk /\ l <> rm) as (Hlb & Hlk & Hlm)
      by (repeat split; intros E; rewrite E in Hl; congruence).
  rewrite run_bind. unfold Imp.alloc. fold l. cbv zeta.
  set (h1 := <[l := Imp.OMatched m]> h).
  assert (h1 !! rm = Some (Imp.OArray ms)) as Hm1
      by (subst h1; rewrite lookup_insert_ne by assumption; assumption).
  rewrite run_bind, (run_push _ _ _ l Hm1).
  set (h2 := <[rm := Imp.OArray (ms ++ [l])]> h1).
  assert (h2 !! rb = Some (Imp.OArray (w_bank w))) as Hb2.
  { subst h2 h1. rewrite !lookup_insert_ne by congruence. assumption. }
  rewrite run_bind, (run_splice1 _ _ _ i Hb2).
  set (h3 := <[rb := Imp.OArray (delete i (w_bank w))]> h2).
  assert (h3 !! rk = Some (Imp.OArray (w_book w))) as Hk3.
  { subst h3 h2 h1. rewrite !lookup_insert_ne by congruence. assumption. }
  rewrite (run_splice1 _ _ _ j Hk3).
  eexists. split; [reflexivity|].
  assert (h0 !! l = None) as Hl0 by (eapply lookup_weaken_None; eassumption).
  constructor; simpl; try assumption.
  - subst h3 h2 h1. repeat (apply insert_subseteq_r; [assumption|]). assumption.
  - subst h3. rewrite lookup_insert_ne by congruence. apply lookup_insert_eq.
  - apply lookup_insert_eq.
  - exists (ms ++ [l]). split.
    + subst h3 h2. rewrite !lookup_insert_ne by congruence. apply lookup_insert_eq.
    + apply Forall2_app.
      * eapply Forall2_impl; [exact Hms|]. simpl. intros l' m' [Hl' Hl0'].
        split; [|assumption]. subst h3 h2 h1.
        rewrite !lookup_insert_ne by (intros E; rewrite E in *; congruence).
        assumption.
      * constructor; [|constructor]. split; [|assumption]. subst h3 h2 h1.
        rewrite !lookup_insert_ne by congruence. apply lookup_insert_eq.
  - apply Forall_delete. assumption.
  - apply Forall_delete. assumption.
Qed.

(** ** The two passes *)

Lemma exactBody_sim (h0 : Imp.heap) (rb rk rm : Imp.loc) (h : Imp.heap)
    (w w' : Working Imp.loc) (i : nat) :
  sim h0 rb rk rm h w ->
  exactBody (Imp.readTx h0) i w = Some w' ->
  exists h', Imp.exactBody rb rk rm i h = Some (tt, h')
             /\ sim h0 rb rk rm h' w'.
Proof.
  intros Hsim. pose proof Hsim as [Hsub _ _ _ _ _ _ Hb Hk _ Htb Htk].
  unfold exactBody, Imp.exactBody.
  destruct (w_bank w !! i) as [bankTx|] eqn:Hi; simpl; [|discriminate].
  rewrite run_bind, (run_at _ _ _ _ _ Hb Hi).
  rewrite run_bind, (run_readArray _ _ _ Hk).
  rewrite run_bind. unfold Imp.getHeap.
  pose proof (Forall_lookup_1 _ _ _ _ Htb Hi) as HbankTx.
  rewrite (findIndex_ext
             (fun bookTx => exactKey (Imp.readTx h bookTx) (Imp.readTx h bankTx))
             (fun bookTx => exactKey (Imp.readTx h0 bookTx) (Imp.readTx h0 bankTx))).
  2:{ eapply Forall_impl; [exact Htk|]. simpl. intros bookTx HbookTx.
      rewrite !(readTx_weaken h0 h) by assumption. reflexivity. }
  destruct (findIndex _ (w_book w)) as [j|].
  - destruct (w_book w !! j) as [bookTx|] eqn:Hj; simpl; [|discriminate].
    intros [= <-]. rewrite run_bind, (run_at _ _ _ _ _ Hk Hj).
    apply (run_commit h0 rb rk rm h w i j
             {| bankTransaction := bankTx; bookTransaction := bookTx;
                confidence := Num 1; matchMethod := exact |});
      assumption.
  - intros [= <-]. exists h. split; [reflexivity | assumption].
Qed.

Lemma scanBook_ext {T : Type} (tx tx' : T -> Transaction) (bankTx : T)
    (settings : Settings) (books : list T) (j : nat) (best : option BestMatch) :
  tx bankTx = tx' bankTx ->
  Forall (fun bookTx => tx bookTx = tx' bookTx) books ->
  scanBook tx bankTx settings j books best
  = scanBook tx' bankTx settings j books best.
Proof.
  intros Hbank Hall. revert j best.
  induction Hall as [|bookTx books Hx _ IH]; intros j best; simpl; [reflexivity|].
  rewrite Hbank, Hx. apply IH.
Qed.

Lemma fuzzyBody_sim (h0 : Imp.heap) (rb rk rm : Imp.loc) (settings : Settings)
    (h : Imp.heap) (w w' : Working Imp.loc) (i : nat) :
  sim h0 rb rk rm h w ->
  fuzzyBody (Imp.readTx h0) settings i w = Some w' ->
  exists h', Imp.fuzzyBody rb rk rm settings i h = Some (tt, h')
             /\ sim h0 rb rk rm h' w'.
Proof.
  intros Hsim. pose proof Hsim as [Hsub _ _ _ _ _ _ Hb Hk _ Htb Htk].
  unfold fuzzyBody, Imp.fuzzyBody.
  destruct (w_bank w !! i) as [bankTx|] eqn:Hi; simpl; [|discriminate].
  rewrite run_bind, (run_at _ _ _ _ _ Hb Hi).
  rewrite run_bind, (run_readArray _ _ _ Hk).
  rewrite run_bind. unfold Imp.getHeap.
  pose proof (Forall_lookup_1 _ _ _ _ Htb Hi) as HbankTx.
  rewrite (scanBook_ext (Imp.readTx h) (Imp.readTx h0)).
  2:{ apply readTx_weaken; assumption. }
  2:{ eapply Forall_impl; [exact Htk|]. simpl. intros bookTx HbookTx.
      apply readTx_weaken; assumption. }
  destruct (scanBook _ _ _ _ (w_book w) None) as [bestMatch|].
  - destruct (w_book w !! index bestMatch) as [bookTx|] eqn:Hj; simpl; [|discriminate].
    intros [= <-]. rewrite run_bind, (run_at _ _ _ _ _ Hk Hj).
    apply (run_commit h0 rb rk rm h w i (index bestMatch)
             {| bankTransaction := bankTx; bookTransaction := bookTx;
                confidence := best_confidence bestMatch; matchMethod := fuzzy |});
      assumption.
  - intros [= <-]. exists h. split; [reflexivity | assumption].
Qed.

Lemma forDownM_sim (P : Imp.heap -> Working Imp.loc -> Prop)
    (body : nat -> Working Imp.loc -> option (Working Imp.loc))
    (bodyM : nat -> Imp.M unit) :
  (forall i h w w', P h w -> body i w = Some w' ->
                    exists h', bodyM i h = Some (tt, h') /\ P h' w') ->
  forall n h w w',
    P h w -> forDown body n w = Some w' ->
    exists h', Imp.forDownM bodyM n h = Some (tt, h') /\ P h' w'.
Proof.
  intros Hbody. induction n as [|i IH]; intros h w w' HP; simpl.
  - intros [= <-]. exists h. split; [reflexivity | assumption].
  - destruct (body i w) as [w1|] eqn:Hw1; simpl; [|discriminate].
    intros Hrest. destruct (Hbody i h w w1 HP Hw1) as (h1 & Hrun1 & HP1).
    rewrite run_bind, Hrun1. eapply IH; eassumption.
Qed.

Lemma findExactMatches_sim (h0 : Imp.heap) (rb rk rm : Imp.loc) (h : Imp.heap)
    (w w' : Working Imp.loc) :
  sim h0 rb rk rm h w ->
  findExactMatches (Imp.readTx h0) w = Some w' ->
  exists h', Imp.findExactMatches rb rk rm h = Some (tt, h')
             /\ sim h0 rb rk rm h' w'.
Proof.
  intros Hsim Hrun. unfold Imp.findExactMatches.
  rewrite run_bind, (run_arrayLength _ _ _ (sim_bank _ _ _ _ _ _ Hsim)).
  eapply (forDownM_sim (sim h0 rb rk rm)); [|eassumption..].
  intros i h1 w1 w2. apply exactBody_sim.
Qed.

Lemma findFuzzyMatches_sim (h0 : Imp.heap) (rb rk rm : Imp.loc)
    (settings : Settings) (h : Imp.heap) (w w' : Working Imp.loc) :
  sim h0 rb rk rm h w ->
  findFuzzyMatches (Imp.readTx h0) settings w = Some w' ->
  exists h', Imp.findFuzzyMatches rb rk rm settings h = Some (tt, h')
             /\ sim h0 rb rk rm h' w'.
Proof.
  intros Hsim Hrun. unfold Imp.findFuzzyMatches.
  rewrite run_bind, (run_arrayLength _ _ _ (sim_bank _ _ _ _ _ _ Hsim)).
  eapply (forDownM_sim (sim h0 rb rk rm)); [|eassumption..].
  intros i h1 w1 w2. apply fuzzyBody_sim.
Qed.

(** ** The matcher and the orchestrator *)

Lemma matchTransactions_refines (h : Imp.heap) (ba ka : Imp.loc)
    (bank book : list Imp.loc) (settings : Settings)
    (o : MatchOutcome Imp.loc) :
  h !! ba = Some (Imp.OArray bank) ->
  h !! ka = Some (Imp.OArray book) ->
  Forall (isTx h) bank -> Forall (isTx h) book ->
  matchTransactions (Imp.readTx h) bank book settings = Some o ->
  exists out h',
    Imp.matchTransactions ba ka settings h = Some (out, h')
    /\ sim h (Imp.or_unmatchedBank out) (Imp.or_unmatchedBook out)
           (Imp.or_matched out) h'
           {| w_bank := o_unmatchedBank o;
              w_book := o_unmatchedBook o;
              w_matched := o_matched o |}.
Proof.
  intros Hba Hka Htb Htk. unfold matchTransactions, Imp.matchTransactions.
  rewrite run_bind, (run_spread _ _ _ Hba).
  pose proof (fresh_None h) as Hrb. set (rb := fresh (dom h)) in *.
  set (h1 := <[rb := Imp.OArray bank]> h).
  assert (rb <> ka) as Hrbka by (intros E; rewrite E in Hrb; congruence).
  assert (h1 !! ka = Some (Imp.OArray book)) as Hka1
      by (subst h1; rewrite lookup_insert_ne by assumption; assumption).
  rewrite run_bind, (run_spread _ _ _ Hka1).
  pose proof (fresh_None h1) as Hrk. set (rk := fresh (dom h1)) in *.
  set (h2 := <[rk := Imp.OArray book]> h1).
  assert (rb <> rk) as Hbk
      by (intros E; rewrite <- E in Hrk; subst h1;
          rewrite lookup_insert_eq in Hrk; discriminate Hrk).
  rewrite run_bind. unfold Imp.alloc at 1. cbv zeta.
  pose proof (fresh_None h2) as Hrm. set (rm := fresh (dom h2)) in *.
  set (h3 := <[rm := Imp.OArray []]> h2).
  assert (rk <> rm) as Hkm
      by (intros E; rewrite <- E in Hrm; subst h2;
          rewrite lookup_insert_eq in Hrm; discriminate Hrm).
  assert (rb <> rm) as Hbm.
  { intros E. rewrite <- E in Hrm. subst h2 h1.
    rewrite lookup_insert_ne, lookup_insert_eq in Hrm by congruence.
    discriminate Hrm. }
  assert (h !! rk = None) as Hrk0.
  { subst h1. rewrite lookup_insert_ne in Hrk by assumption. assumption. }
  assert (h !! rm = None) as Hrm0.
  { subst h2 h1. rewrite !lookup_insert_ne in Hrm by congruence. assumption. }
  assert (sim h rb rk rm h3 (start bank book)) as Hsim.
  { constructor; simpl; try assumption.
    - subst h3 h2 h1. repeat (apply insert_subseteq_r; [assumption|]). reflexivity.
    - subst h3 h2 h1. rewrite !lookup_insert_ne by congruence. apply lookup_insert_eq.
    - subst h3 h2. rewrite lookup_insert_ne by congruence. apply lookup_insert_eq.
    - exists []. split; [subst h3; apply lookup_insert_eq | constructor]. }
  fold (start bank book). clearbody h3. clear Hrm Hrk.
  destruct (if s_autoMatchExact settings
            then findExactMatches (Imp.readTx h) (start bank book)
            else Some (start bank book)) as [w1|] eqn:H1; simpl; [|discriminate].
  assert (exists h4,
            (if s_autoMatchExact settings
             then Imp.findExactMatches rb rk rm
             else mret tt) h3 = Some (tt, h4)
            /\ sim h rb rk rm h4 w1) as (h4 & Hrun1 & Hsim1).
  { destruct (s_autoMatchExact settings).
    - eapply findExactMatches_sim; eassumption.
    - injection H1 as <-. exists h3. split; [reflexivity | assumption]. }
  rewrite run_bind, Hrun1.
  destruct (if s_fuzzyMatching settings
            then findFuzzyMatches (Imp.readTx h) settings w1
            else Some w1) as [w2|] eqn:H2; simpl; [|discriminate].
  assert (exists h5,
            (if s_fuzzyMatching settings
             then Imp.findFuzzyMatches rb rk rm settings
             else mret tt) h4 = Some (tt, h5)
            /\ sim h rb rk rm h5 w2) as (h5 & Hrun2 & Hsim2).
  { destruct (s_fuzzyMatching settings).
    - eapply findFuzzyMatches_sim; eassumption.
    - injection H2 as <-. exists h4. split; [reflexivity | assumption]. }
  rewrite run_bind, Hrun2.
  intros [= <-]. eexists. exists h5. split; [reflexivity|].
  simpl. destruct w2. assumption.
Qed.

Lemma fold_left_ext_Forall {A B : Type} (f g : A -> B -> A) (l : list B) (a : A) :
  Forall (fun x => forall a', f a' x = g a' x) l ->
  fold_left f l a = fold_left g l a.
Proof.
  intros Hall. revert a. induction Hall as [|x l Hx _ IH]; intros a; simpl.
  - reflexivity.
  - rewrite Hx. apply IH.
Qed.

Lemma calculateReconciliationSummary_ext {T : Type} (tx tx' : T -> Transaction)
    (account : AccountInfo) (matched : list (MatchedTransaction T))
    (unmatchedBank unmatchedBook : list T) :
  Forall (fun m => tx (bankTransaction m) = tx' (bankTransaction m)) matched ->
  Forall (fun t => tx t = tx' t) unmatchedBank ->
  Forall (fun t => tx t = tx' t) unmatchedBook ->
  calculateReconciliationSummary tx account matched unmatchedBank unmatchedBook
  = calculateReconciliationSummary tx' account matched unmatchedBank unmatchedBook.
Proof.
  intros Hm Hb Hk. unfold calculateReconciliationSummary.
  rewrite (fold_left_ext_Forall
             (fun sum match_ => (sum + amount (tx (bankTransaction match_)))%Q)
             (fun sum match_ => (sum + amount (tx' (bankTransaction match_)))%Q)).
  2:{ eapply Forall_impl; [exact Hm|]. simpl. intros m E a. rewrite E. reflexivity. }
  rewrite (fold_left_ext_Forall (fun sum t => (sum + amount (tx t))%Q)
             (fun sum t => (sum + amount (tx' t))%Q) unmatchedBank).
  2:{ eapply Forall_impl; [exact Hb|]. simpl. intros m E a. rewrite E. reflexivity. }
  rewrite (fold_left_ext_Forall (fun sum t => (sum + amount (tx t))%Q)
             (fun sum t => (sum + amount (tx' t))%Q) unmatchedBook).
  2:{ eapply Forall_impl; [exact Hk|]. simpl. intros m E a. rewrite E. reflexivity. }
  reflexivity.
Qed.

Lemma processReconciliation_refines (h : Imp.heap) (data : Imp.loc)
    (d : Imp.DataObject) (bank book : list Imp.loc) :
  h !! data = Some (Imp.OData d) ->
  h !! Imp.d_bankTransactions d = Some (Imp.OArray bank) ->
  h !! Imp.d_bookTransactions d = Some (Imp.OArray book) ->
  Forall (isTx h) bank -> Forall (isTx h) book ->
  exists r res h',
    processReconciliation (Imp.readTx h) (dataOf d bank book) = Some r
    /\ Imp.processReconciliation data h = Some (res, h')
    /\ sim h (Imp.r_unmatchedBank res) (Imp.r_unmatchedBook res)
           (Imp.r_matched res) h'
           {| w_bank := unmatchedBank r;
              w_book := unmatchedBook r;
              w_matched := matched r |}
    /\ Imp.r_summary res = summary r
    /\ related (fun m => exactEntry (Imp.readTx h) m
                         \/ fuzzyEntry (Imp.readTx h)
                                       (mergeSettings (Imp.d_settings d)) m)
               (start bank book)
               {| w_bank := unmatchedBank r;
                  w_book := unmatchedBook r;
                  w_matched := matched r |}.
Proof.
  intros Hdata Hba Hka Htb Htk.
  destruct (matchTransactions_related (Imp.readTx h) bank book
              (mergeSettings (Imp.d_settings d))) as (w & Hpure & Hrel).
  destruct (matchTransactions_refines h _ _ bank book _ _ Hba Hka Htb Htk Hpure)
    as (out & h' & Hrun & Hsim).
  unfold processReconciliation, Imp.processReconciliation. simpl.
  rewrite Hpure. simpl.
  rewrite run_bind. unfold Imp.readData at 1. rewrite Hdata.
  rewrite run_bind, Hrun.
  pose proof Hsim as [Hsub _ _ _ _ _ _ Hb Hk (ms & Hm & Hms) Htb' Htk'].
  simpl in Hb, Hk, Hms, Htb', Htk'.
  rewrite run_bind. unfold Imp.calculateReconciliationSummary.
  rewrite run_bind, (run_readArray _ _ _ Hm).
  rewrite run_bind, (run_readArray _ _ _ Hb).
  rewrite run_bind, (run_readArray _ _ _ Hk).
  rewrite run_bind. unfold Imp.getHeap.
  assert (mapM (Imp.readMatched h') ms = Some (w_matched w)) as HmapM.
  { apply mapM_Some_2. eapply Forall2_impl; [exact Hms|]. simpl.
    intros l m [Hl _]. unfold Imp.readMatched. rewrite Hl. reflexivity. }
  rewrite run_bind, HmapM. unfold Imp.liftOpt.
  eexists. eexists. exists h'. split; [reflexivity|].
  split; [reflexivity|]. simpl.
  split; [destruct w; exact Hsim|]. split; [|destruct w; exact Hrel].
  apply calculateReconciliationSummary_ext.
  - destruct Hrel as (Hperm & _). simpl in Hperm.
    assert (Forall (isTx h) (map bankTransaction (w_matched w) ++ w_bank w)) as Hall
        by (rewrite Hperm; assumption).
    apply Forall_app in Hall as [Hall _].
    rewrite Forall_forall. intros m Hin.
    apply readTx_weaken; [assumption|].
    rewrite Forall_forall in Hall. apply Hall.
    apply elem_of_map_intro with (f := bankTransaction), Hin.
  - eapply Forall_impl; [exact Htb'|]. simpl. intros.
    apply readTx_weaken; assumption.
  - eapply Forall_impl; [exact Htk'|]. simpl. intros.
    apply readTx_weaken; assumption.
Qed.

(** ** The caller's objects are left as they were *)

(** C8: [processReconciliation] returns, and afterwards every object of the
    caller's store, [data], its two arrays and every transaction with all
    its fields among them, is what it was; the three arrays returned are
    new objects; the unmatched arrays hold references taken from the
    caller's arrays, in their order, and every matched entry is a new
    object whose two sides are references taken from the caller's bank and
    book arrays: the transactions are shared, not copied. *)
Theorem processReconciliation_frame (h : Imp.heap) (data : Imp.loc)
    (d : Imp.DataObject) (bank book : list Imp.loc) :
  h !! data = Some (Imp.OData d) ->
  h !! Imp.d_bankTransactions d = Some (Imp.OArray bank) ->
  h !! Imp.d_bookTransactions d = Some (Imp.OArray book) ->
  Forall (isTx h) bank -> Forall (isTx h) book ->
  exists res h' ms ub uk,
    Imp.processReconciliation data h = Some (res, h')
    /\ h ⊆ h'
    /\ h' !! data = Some (Imp.OData d)
    /\ h' !! Imp.d_bankTransactions d = Some (Imp.OArray bank)
    /\ h' !! Imp.d_bookTransactions d = Some (Imp.OArray book)
    /\ Forall (fun l => h' !! l = h !! l /\ isTx h' l) (bank ++ book)
    /\ h !! Imp.r_matched res = None
    /\ h !! Imp.r_unmatchedBank res = None
    /\ h !! Imp.r_unmatchedBook res = None
    /\ h' !! Imp.r_matched res = Some (Imp.OArray ms)
    /\ h' !! Imp.r_unmatchedBank res = Some (Imp.OArray ub)
    /\ h' !! Imp.r_unmatchedBook res = Some (Imp.OArray uk)
    /\ sublist ub bank
    /\ sublist uk book
    /\ Forall (fun l => exists m,
                          h' !! l = Some (Imp.OMatched m)
                          /\ h !! l = None
                          /\ bankTransaction m ∈ bank
                          /\ bookTransaction m ∈ book) ms.
Proof.
  intros Hdata Hba Hka Htb Htk.
  destruct (processReconciliation_refines h data d bank book Hdata Hba Hka Htb Htk)
    as (r & res & h' & _ & Hrun & Hsim & _ & Hrel).
  destruct Hsim as [Hsub Hnb Hnk Hnm _ _ _ Hb Hk (ms & Hm & Hms) _ _].
  destruct Hrel as (Hpb & Hpk & Hsb & Hsk & _).
  simpl in *.
  exists res, h', ms, (unmatchedBank r), (unmatchedBook r).
  split; [assumption|]. split; [assumption|].
  split; [eapply lookup_weaken; eassumption|].
  split; [eapply lookup_weaken; eassumption|].
  split; [eapply lookup_weaken; eassumption|].
  split.
  { apply Forall_app. split; [eapply Forall_impl; [exact Htb|]
                             | eapply Forall_impl; [exact Htk|]];
      simpl; intros l [t Ht];
      pose proof (lookup_weaken _ _ _ _ Ht Hsub) as Ht';
      (split; [congruence | exists t; assumption]). }
  repeat (split; [assumption|]).
  assert (forall m, m ∈ matched r ->
                    bankTransaction m ∈ bank /\ bookTransaction m ∈ book) as Hside.
  { intros m Hin. split.
    - rewrite <- Hpb. apply elem_of_app. left.
      apply elem_of_map_intro with (f := bankTransaction), Hin.
    - rewrite <- Hpk. apply elem_of_app. left.
      apply elem_of_map_intro with (f := bookTransaction), Hin. }
  clear -Hms Hside.
  induction Hms as [|l m ms' ks [Hl Hl0] _ IH]; constructor.
  - exists m. split; [assumption|]. split; [assumption|].
    apply Hside, list_elem_of_here.
  - apply IH. intros m' Hin. apply Hside, list_elem_of_further, Hin.
Qed.

Lemma processReconciliation_frame_witness :
  exists res h',
    Imp.processReconciliation 6%positive twin_heap = Some (res, h')
    /\ twin_heap ⊆ h'
    /\ h' !! 4%positive = Some (Imp.OArray [1%positive; 2%positive])
    /\ h' !! 5%positive = Some (Imp.OArray [3%positive])
    /\ twin_heap !! Imp.r_unmatchedBank res = None.
Proof.
  pose proof (processReconciliation_frame twin_heap 6%positive twin_data
                [1%positive; 2%positive] [3%positive]) as H.
  destruct H as (res & h' & ms & ub & uk & Hrun & Hsub & _ & Hb & Hk & _ & _
                 & Hnew & _).
  - reflexivity.
  - reflexivity.
  - reflexivity.
  - repeat constructor; eexists; reflexivity.
  - repeat constructor; eexists; reflexivity.
  - exists res, h'. repeat split; assumption.
Defined.

(** The run on the twins' store: the new arrays are at 7, 8 and 9, the new
    entry at 10 holds the references 2 and 3, and the caller's arrays at 4
    and 5 still hold what they held. *)
Example twin_heap_run :
  exists h',
    Imp.processReconciliation 6%positive twin_heap
    = Some ({| Imp.r_matched := 9%positive;
               Imp.r_unmatchedBank := 7%positive;
               Imp.r_unmatchedBook := 8%positive;
               Imp.r_summary :=
                 calculateReconciliationSummary (fun t : Transaction => t)
                   scenario_account
                   [ {| bankTransaction := twin_b2; bookTransaction := twin_k1;
                        confidence := Num 1; matchMethod := exact |} ]
                   [twin_b1] [] |}, h')
    /\ h' !! 7%positive = Some (Imp.OArray [1%positive])
    /\ h' !! 8%positive = Some (Imp.OArray [])
    /\ h' !! 9%positive = Some (Imp.OArray [10%positive])
    /\ h' !! 10%positive
       = Some (Imp.OMatched {| bankTransaction := 2%positive;
                               bookTransaction := 3%positive;
                               confidence := Num 1; matchMethod := exact |})
    /\ h' !! 4%positive = Some (Imp.OArray [1%positive; 2%positive])
    /\ h' !! 5%positive = Some (Imp.OArray [3%positive])
    /\ h' !! 1%positive = Some (Imp.OTransaction twin_b1).
Proof.
  eexists. split; [vm_compute; reflexivity|].
  repeat split; vm_compute; reflexivity.
Qed.

(** * Further properties of the matcher *)

(** ** What is left unmatched *)

Lemma fuzzyBody_cleared {T : Type} (tx : T -> Transaction) (settings : Settings)
    (i : nat) (w w' : Working T) :
  (i < length (w_bank w))%nat ->
  fuzzyBody tx settings i w = Some w' ->
  fuzzyCleared tx settings (S i) w -> fuzzyCleared tx settings i w'.
Proof.
  intros Hlt Hbody Hcl. destruct (lookup_lt_is_Some_2 _ _ Hlt) as [bankTx Hi].
  destruct (fuzzyBody_spec tx settings i w bankTx Hi)
    as [[Hnone Hw] | (j & bookTx & _ & Hj & Hw)];
    rewrite Hw in Hbody; injection Hbody as <-.
  - intros i' b k Hge Hb Hk.
    destruct (decide (i' = i)) as [-> | Hne].
    + rewrite Hi in Hb. injection Hb as <-. apply (Hnone k Hk).
    + apply (Hcl i' b k); [lia | assumption..].
  - intros i' b k Hge Hb Hk. simpl in Hb, Hk.
    rewrite list_lookup_delete_ge in Hb by lia.
    apply (Hcl (S i') b k); [lia | assumption |].
    eapply list_elem_of_delete_inv, Hk.
Qed.

Lemma findFuzzyMatches_cleared {T : Type} (tx : T -> Transaction)
    (settings : Settings) (w : Working T) :
  exists w', findFuzzyMatches tx settings w = Some w'
             /\ related (fuzzyEntry tx settings) w w'
             /\ fuzzyCleared tx settings 0 w'.
Proof.
  unfold findFuzzyMatches.
  destruct (forDown_inv (fuzzyBody tx settings)
              (fun n w' => (n <= length (w_bank w'))%nat
                           /\ related (fuzzyEntry tx settings) w w'
                           /\ fuzzyCleared tx settings n w'))
    with (n := length (w_bank w)) (s := w) as (w' & Hrun & _ & Hrel & Hcl).
  - intros i w1 (Hlen & Hrel & Hcl).
    destruct (fuzzyBody_removal tx settings i w1) as (w2 & Hbody & Hrem); [lia|].
    exists w2. split; [assumption|]. split; [|split].
    + eapply removal_length; [eassumption | lia].
    + eapply related_removal; eassumption.
    + eapply fuzzyBody_cleared; [|eassumption..]. lia.
  - split; [lia|]. split; [apply related_refl|].
    intros i b k Hge Hb _. apply lookup_lt_Some in Hb. lia.
  - exists w'. auto.
Qed.

Lemma cleared_noExactPair {T : Type} (tx : T -> Transaction) (w : Working T) :
  cleared tx 0 w -> noExactPair tx (w_bank w) (w_book w).
Proof.
  intros Hcl b k Hb Hk. apply list_elem_of_lookup in Hb as [i Hi].
  apply (Hcl i b k); [lia | assumption..].
Qed.

Lemma fuzzyCleared_noFuzzyPair {T : Type} (tx : T -> Transaction)
    (settings : Settings) (w : Working T) :
  fuzzyCleared tx settings 0 w -> noFuzzyPair tx settings (w_bank w) (w_book w).
Proof.
  intros Hcl b k Hb Hk. apply list_elem_of_lookup in Hb as [i Hi].
  apply (Hcl i b k); [lia | assumption..].
Qed.

Lemma noExactPair_sublist {T : Type} (tx : T -> Transaction)
    (bank bank' book book' : list T) :
  sublist bank' bank -> sublist book' book ->
  noExactPair tx bank book -> noExactPair tx bank' book'.
Proof.
  intros Hb Hk H b k Hinb Hink.
  apply H; eapply elem_of_sublist; eassumption.
Qed.

(** The two passes together, with what each leaves behind. *)
Lemma matchTransactions_leftovers {T : Type} (tx : T -> Transaction)
    (bank book : list T) (settings : Settings) :
  exists w,
    matchTransactions tx bank book settings = Some (outcome w)
    /\ (s_autoMatchExact settings = true ->
        noExactPair tx (w_bank w) (w_book w))
    /\ (s_fuzzyMatching settings = true ->
        noFuzzyPair tx settings (w_bank w) (w_book w)).
Proof.
  unfold matchTransactions. fold (start bank book).
  assert (exists w1,
            (if s_autoMatchExact settings
             then findExactMatches tx (start bank book)
             else Some (start bank book)) = Some w1
            /\ (s_autoMatchExact settings = true ->
                noExactPair tx (w_bank w1) (w_book w1)))
    as (w1 & -> & Hex).
  { destruct (s_autoMatchExact settings).
    - destruct (findExactMatches_spec tx (start bank book)) as (w1 & H1 & _ & Hcl).
      exists w1. split; [assumption|]. intros _. apply cleared_noExactPair, Hcl.
    - exists (start bank book). split; [reflexivity | discriminate]. }
  simpl. destruct (s_fuzzyMatching settings).
  - destruct (findFuzzyMatches_cleared tx settings w1)
      as (w2 & -> & (_ & _ & Hsb & Hsk & _) & Hcl).
    simpl. exists w2. split; [reflexivity|]. split.
    + intros Hauto. eapply noExactPair_sublist; [eassumption..|]. auto.
    + intros _. apply fuzzyCleared_noFuzzyPair, Hcl.
  - simpl. exists w1. split; [reflexivity|]. split; [assumption | discriminate].
Qed.

(** X1: with [fuzzyMatching] enabled no match above the threshold is
    missed: no unmatched bank transaction and unmatched book transaction
    have a confidence that reaches [fuzzyThreshold]. *)
Theorem fuzzy_leftovers_below_threshold {T : Type} (tx : T -> Transaction)
    (bank book : list T) (settings : Settings) :
  s_fuzzyMatching settings = true ->
  exists r,
    matchTransactions tx bank book settings = Some r
    /\ forall b k, b ∈ o_unmatchedBank r -> k ∈ o_unmatchedBook r ->
         num_ge (calculateMatchConfidence (tx b) (tx k) settings)
                (Num (s_fuzzyThreshold settings)) = false.
Proof.
  intros Hfuzzy.
  destruct (matchTransactions_leftovers tx bank book settings)
    as (w & Hrun & _ & Hnf).
  exists (outcome w). split; [assumption|]. apply Hnf, Hfuzzy.
Qed.

(** X2: with [autoMatchExact] enabled no exact pair is missed: no unmatched
    bank transaction and unmatched book transaction agree on amount, date
    and reference, whether or not the second pass ran. *)
Theorem exact_leftovers_differ {T : Type} (tx : T -> Transaction)
    (bank book : list T) (settings : Settings) :
  s_autoMatchExact settings = true ->
  exists r,
    matchTransactions tx bank book settings = Some r
    /\ forall b k, b ∈ o_unmatchedBank r -> k ∈ o_unmatchedBook r ->
         exactKey (tx k) (tx b) = false.
Proof.
  intros Hauto.
  destruct (matchTransactions_leftovers tx bank book settings)
    as (w & Hrun & Hne & _).
  exists (outcome w). split; [assumption|]. apply Hne, Hauto.
Qed.

(** ** When nothing is matched *)

Lemma findIndex_None_intro {A : Type} (p : A -> bool) (arr : list A) :
  Forall (fun x => p x = false) arr -> findIndex p arr = None.
Proof.
  induction 1 as [|x arr Hx _ IH]; simpl; [reflexivity|].
  rewrite Hx, IH. reflexivity.
Qed.

Lemma forDown_fix {St : Type} (body : nat -> St -> option St) (s : St) (n : nat) :
  (forall i, (i < n)%nat -> body i s = Some s) -> forDown body n s = Some s.
Proof.
  induction n as [|i IH]; intros Hbody; simpl; [reflexivity|].
  rewrite Hbody by lia. simpl. apply IH. intros j Hj. apply Hbody. lia.
Qed.

Lemma scanBook_none {T : Type} (tx : T -> Transaction) (bankTx : T)
    (settings : Settings) (books : list T) (j : nat) :
  (forall k, k ∈ books ->
     num_ge (calculateMatchConfidence (tx bankTx) (tx k) settings)
            (Num (s_fuzzyThreshold settings)) = false) ->
  scanBook tx bankTx settings j books None = None.
Proof.
  revert j. induction books as [|k books IH]; intros j Hall; [reflexivity|].
  cbn [scanBook]. cbv zeta.
  rewrite (Hall k) by apply list_elem_of_here. cbn [andb].
  apply IH. intros k' Hk'. apply Hall, list_elem_of_further, Hk'.
Qed.

Lemma findExactMatches_noop {T : Type} (tx : T -> Transaction) (w : Working T) :
  noExactPair tx (w_bank w) (w_book w) -> findExactMatches tx w = Some w.
Proof.
  intros Hno. unfold findExactMatches. apply forDown_fix. intros i Hi.
  destruct (lookup_lt_is_Some_2 _ _ Hi) as [bankTx HbankTx].
  unfold exactBody. rewrite HbankTx. simpl.
  rewrite findIndex_None_intro; [reflexivity|].
  rewrite Forall_forall. intros k Hk. apply Hno; [|assumption].
  apply list_elem_of_lookup. eauto.
Qed.

Lemma findFuzzyMatches_noop {T : Type} (tx : T -> Transaction)
    (settings : Settings) (w : Working T) :
  noFuzzyPair tx settings (w_bank w) (w_book w) ->
  findFuzzyMatches tx settings w = Some w.
Proof.
  intros Hno. unfold findFuzzyMatches. apply forDown_fix. intros i Hi.
  destruct (lookup_lt_is_Some_2 _ _ Hi) as [bankTx HbankTx].
  unfold fuzzyBody. rewrite HbankTx. simpl.
  rewrite scanBook_none; [reflexivity|].
  intros k Hk. apply Hno; [|assumption].
  apply list_elem_of_lookup. eauto.
Qed.

Lemma matchTransactions_noop {T : Type} (tx : T -> Transaction)
    (bank book : list T) (settings : Settings) :
  (s_autoMatchExact settings = true -> noExactPair tx bank book) ->
  (s_fuzzyMatching settings = true -> noFuzzyPair tx settings bank book) ->
  matchTransactions tx bank book settings
  = Some {| o_matched := []; o_unmatchedBank := bank; o_unmatchedBook := book |}.
Proof.
  intros Hex Hfz. unfold matchTransactions.
  destruct (s_autoMatchExact settings).
  - rewrite findExactMatches_noop by (apply Hex; reflexivity). simpl.
    destruct (s_fuzzyMatching settings); [|reflexivity].
    rewrite findFuzzyMatches_noop by (apply Hfz; reflexivity). reflexivity.
  - simpl. destruct (s_fuzzyMatching settings); [|reflexivity].
    rewrite findFuzzyMatches_noop by (apply Hfz; reflexivity). reflexivity.
Qed.

Lemma sublist_full {A : Type} (l1 l2 : list A) :
  sublist l1 l2 -> (length l2 <= length l1)%nat -> l1 = l2.
Proof.
  induction 1 as [|x l1 l2 _ IH|x l1 l2 Hs IH]; simpl; intros Hlen.
  - reflexivity.
  - f_equal. apply IH. lia.
  - apply sublist_length in Hs. lia.
Qed.

(** X3: reconciling the leftovers again finds nothing: run on its own
    unmatched lists with the same settings, the matcher returns no pair and
    the same two lists. *)
Theorem leftovers_rematch_nothing {T : Type} (tx : T -> Transaction)
    (bank book : list T) (settings : Settings) :
  exists r,
    matchTransactions tx bank book settings = Some r
    /\ matchTransactions tx (o_unmatchedBank r) (o_unmatchedBook r) settings
       = Some {| o_matched := [];
                 o_unmatchedBank := o_unmatchedBank r;
                 o_unmatchedBook := o_unmatchedBook r |}.
Proof.
  destruct (matchTransactions_leftovers tx bank book settings)
    as (w & Hrun & Hne & Hnf).
  exists (outcome w). split; [assumption|].
  apply matchTransactions_noop; assumption.
Qed.

(** X4: the matcher returns no pair exactly when no pair qualifies: no
    bank and book transaction agree on amount, date and reference (if
    [autoMatchExact]) and none reach the threshold (if [fuzzyMatching]);
    the unmatched lists are then the two input lists themselves. *)
Theorem nothing_matched_iff {T : Type} (tx : T -> Transaction)
    (bank book : list T) (settings : Settings) :
  exists r,
    matchTransactions tx bank book settings = Some r
    /\ (o_matched r = []
        <-> (s_autoMatchExact settings = true -> noExactPair tx bank book)
            /\ (s_fuzzyMatching settings = true ->
                noFuzzyPair tx settings bank book))
    /\ (o_matched r = [] ->
        o_unmatchedBank r = bank /\ o_unmatchedBook r = book).
Proof.
  destruct (matchTransactions_leftovers tx bank book settings)
    as (w & Hrun & Hne & Hnf).
  destruct (matchTransactions_related tx bank book settings)
    as (w' & Hrun' & Hpb & Hpk & Hsb & Hsk & _).
  rewrite Hrun in Hrun'. injection Hrun' as Hm Hb Hk.
  rewrite <- Hm, <- Hb in Hpb. rewrite <- Hm, <- Hk in Hpk.
  rewrite <- Hb in Hsb. rewrite <- Hk in Hsk. clear Hm Hb Hk w'.
  simpl in Hpb, Hpk, Hsb, Hsk.
  assert (w_matched w = [] -> w_bank w = bank /\ w_book w = book) as Hsame.
  { intros E. rewrite E in Hpb, Hpk. simpl in Hpb, Hpk. split.
    - apply sublist_full; [assumption|]. rewrite Hpb. lia.
    - apply sublist_full; [assumption|]. rewrite Hpk. lia. }
  exists (outcome w). split; [assumption|]. simpl. split; [split|exact Hsame].
  - intros E. destruct (Hsame E) as [<- <-]. split; assumption.
  - intros [Hex Hfz].
    rewrite (matchTransactions_noop tx bank book settings Hex Hfz) in Hrun.
    injection Hrun as <- _ _. reflexivity.
Qed.

(** X5: when either input list is empty nothing is matched and both lists
    come back as they are, whatever the settings. *)
Theorem empty_side_unmatched {T : Type} (tx : T -> Transaction)
    (bank book : list T) (settings : Settings) :
  bank = [] \/ book = [] ->
  matchTransactions tx bank book settings
  = Some {| o_matched := []; o_unmatchedBank := bank; o_unmatchedBook := book |}.
Proof.
  intros Hempty. apply matchTransactions_noop; intros _ b k Hb Hk;
    destruct Hempty as [-> | ->];
    solve [ apply not_elem_of_nil in Hb; contradiction
          | apply not_elem_of_nil in Hk; contradiction ].
Qed.

Lemma empty_side_unmatched_witness :
  matchTransactions (fun t => t) [twin_b1; twin_b2] [] defaultSettings
  = Some {| o_matched := [];
            o_unmatchedBank := [twin_b1; twin_b2];
            o_unmatchedBook := [] |}.
Proof.
  apply (empty_side_unmatched (fun t => t) [twin_b1; twin_b2] []).
  right. reflexivity.
Defined.

(** ** The shape of [matched] *)

Lemma matchTransactions_blocks {T : Type} (tx : T -> Transaction)
    (bank book : list T) (settings : Settings) :
  exists r exacts fuzzies,
    matchTransactions tx bank book settings = Some r
    /\ o_matched r = exacts ++ fuzzies
    /\ Forall (exactEntry tx) exacts
    /\ Forall (fuzzyEntry tx settings) fuzzies
    /\ (s_autoMatchExact settings = false -> exacts = [])
    /\ (s_fuzzyMatching settings = false -> fuzzies = [])
    /\ Forall (fun m => matchMethod m <> manual) (o_matched r).
Proof.
  unfold matchTransactions. fold (start bank book).
  assert (exists w1 exacts,
            (if s_autoMatchExact settings
             then findExactMatches tx (start bank book)
             else Some (start bank book)) = Some w1
            /\ w_matched w1 = exacts /\ Forall (exactEntry tx) exacts
            /\ (s_autoMatchExact settings = false -> exacts = []))
    as (w1 & exacts & -> & Hm1 & Hall1 & Hoff1).
  { destruct (s_autoMatchExact settings).
    - destruct (findExactMatches_spec tx (start bank book))
        as (w1 & H1 & (_ & _ & _ & _ & new & Hnew & Hall) & _).
      exists w1, new. repeat split; try assumption. discriminate.
    - exists (start bank book), []. repeat split. constructor. }
  simpl.
  assert (exists w2 fuzzies,
            (if s_fuzzyMatching settings
             then findFuzzyMatches tx settings w1
             else Some w1) = Some w2
            /\ w_matched w2 = w_matched w1 ++ fuzzies
            /\ Forall (fuzzyEntry tx settings) fuzzies
            /\ (s_fuzzyMatching settings = false -> fuzzies = []))
    as (w2 & fuzzies & -> & Hm2 & Hall2 & Hoff2).
  { destruct (s_fuzzyMatching settings).
    - destruct (findFuzzyMatches_spec tx settings w1)
        as (w2 & H2 & (_ & _ & _ & _ & new & Hnew & Hall)).
      exists w2, new. repeat split; try assumption. discriminate.
    - exists w1, []. repeat split; [symmetry; apply app_nil_r | constructor]. }
  simpl. eexists. exists exacts, fuzzies. split; [reflexivity|]. simpl.
  rewrite Hm2, Hm1. repeat split; try assumption.
  apply Forall_app. split.
  - eapply Forall_impl; [exact Hall1|]. intros m (Hm & _). simpl. congruence.
  - eapply Forall_impl; [exact Hall2|]. intros m (Hm & _). simpl. congruence.
Qed.

(** * Further properties of the confidence model *)

(** ** A lost amount factor *)







(** ** Amounts of matched pairs and the totals of the summary *)


(** X6: [matched] is the pairs of the first pass followed by the pairs of
    the second.  A pair of the first pass has method [exact], confidence 1
    and two sides that agree on amount, date and reference; a pair of the
    second has method [fuzzy] and, as confidence, the score of its two
    sides, at or above the threshold.  A pass that is disabled contributes
    none, and no pair has method [manual]. *)
Theorem matched_structure {T : Type} (tx : T -> Transaction)
    (bank book : list T) (settings : Settings) :
  exists r exacts fuzzies,
    matchTransactions tx bank book settings = Some r
    /\ o_matched r = exacts ++ fuzzies
    /\ Forall (exactEntry tx) exacts
    /\ Forall (fuzzyEntry tx settings) fuzzies
    /\ (s_autoMatchExact settings = false -> exacts = [])
    /\ (s_fuzzyMatching settings = false -> fuzzies = [])
    /\ Forall (fun m => matchMethod m <> manual) (o_matched r).
Proof. apply matchTransactions_blocks. Qed.











(** ** A zero date tolerance *)

Lemma daysBetween_zero (bankTx bookTx : Transaction) :
  (daysBetween bankTx bookTx == 0)%Q <-> date bankTx = date bookTx.
Proof.
  unfold daysBetween, msPerDay. split.
  - intros H.
    assert (inject_Z (Z.abs (date bankTx - date bookTx)) == 0)%Q as H0.
    { rewrite <- (Qmult_div_r (inject_Z (Z.abs (date bankTx - date bookTx)))
                              (inject_Z (1000 * 60 * 60 * 24)))
        by discriminate.
      rewrite H. ring. }
    unfold Qeq in H0. simpl in H0. lia.
  - intros ->. rewrite Z.sub_diag. reflexivity.
Qed.

Lemma zeroDivision_iff (bankTx bookTx : Transaction) (settings : Settings) :
  zeroDivision bankTx bookTx settings = true
  <-> s_matchByDate settings = true
      /\ (s_dateTolerance settings == 0)%Q
      /\ date bankTx = date bookTx.
Proof.
  unfold zeroDivision. rewrite !andb_true_iff, Qle_bool_iff, Qeq_bool_iff.
  pose proof (daysBetween_nonneg bankTx bookTx) as Hd.
  rewrite <- daysBetween_zero. split.
  - intros [[Hm Hle] Hz]. repeat split; [assumption..|lra].
  - intros (Hm & Hz & Hd0). repeat split; [assumption|lra|assumption].
Qed.

Lemma scoreAmount_number bankTx bookTx settings acc :
  (0 <= snd acc)%Q /\ (exists q, fst acc = Num q) ->
  (0 <= snd (scoreAmount bankTx bookTx settings acc))%Q
  /\ exists q, fst (scoreAmount bankTx bookTx settings acc) = Num q.
Proof.
  destruct acc as [score w]. unfold scoreAmount. simpl. intros [Hw [q ->]].
  destruct (s_matchByAmount settings); simpl; [|split; [assumption | eauto]].
  destruct (Qeq_bool _ _); simpl; split; try lra; eauto.
Qed.

Lemma scoreDate_nan bankTx bookTx settings acc :
  (0 <= snd acc)%Q /\ (exists q, fst acc = Num q) ->
  nanAcc (zeroDivision bankTx bookTx settings)
         (scoreDate bankTx bookTx settings acc).
Proof.
  destruct acc as [score w]. unfold scoreDate, nanAcc, zeroDivision. simpl.
  intros [Hw [q ->]].
  destruct (s_matchByDate settings); simpl; [|split; [assumption | eauto]].
  destruct (Qle_bool _ _); simpl; [|split; [lra | eauto]].
  destruct (Qeq_bool (s_dateTolerance settings) 0); simpl.
  - split; [lra|]. split; [reflexivity | lra].
  - split; [lra | eauto].
Qed.

Lemma scoreDescription_nan trigger bankTx bookTx settings acc :
  nanAcc trigger acc -> nanAcc trigger (scoreDescription bankTx bookTx settings acc).
Proof.
  destruct acc as [score w]. unfold scoreDescription, nanAcc. simpl.
  intros [Hw H]. destruct (_ && _); simpl; [|split; assumption].
  split; [lra|]. destruct trigger.
  - destruct H as [-> H]. split; [reflexivity | lra].
  - destruct H as [q ->]. simpl. eauto.
Qed.

Lemma scoreReference_nan trigger bankTx bookTx settings acc :
  nanAcc trigger acc -> nanAcc trigger (scoreReference bankTx bookTx settings acc).
Proof.
  destruct acc as [score w]. unfold scoreReference, nanAcc. simpl.
  intros [Hw H]. destruct (_ && _); simpl; [|split; assumption].
  split; [lra|]. destruct trigger.
  - destruct H as [-> H]. split; [reflexivity | lra].
  - destruct H as [q ->]. simpl. eauto.
Qed.

Lemma confidence_nan_iff (bankTx bookTx : Transaction) (settings : Settings) :
  calculateMatchConfidence bankTx bookTx settings = NaN
  <-> zeroDivision bankTx bookTx settings = true.
Proof.
  unfold calculateMatchConfidence.
  assert ((0 <= snd (Num 0, 0%Q))%Q /\ exists q, fst (Num 0, 0%Q) = Num q) as H0
      by (simpl; split; [lra | eauto]).
  apply (scoreAmount_number bankTx bookTx settings) in H0.
  apply (scoreDate_nan bankTx bookTx settings) in H0.
  apply (scoreDescription_nan _ bankTx bookTx settings) in H0.
  apply (scoreReference_nan _ bankTx bookTx settings) in H0.
  destruct (scoreReference _ _ _ _) as [score w]. destruct H0 as [Hw H].
  simpl in *. destruct (zeroDivision bankTx bookTx settings).
  - destruct H as [-> Hlow].
    assert (Qlt_bool 0 w = true) as -> by (apply Qlt_bool_iff; lra).
    split; reflexivity.
  - destruct H as [q ->]. split; [|discriminate].
    destruct (Qlt_bool 0 w) eqn:F; [|discriminate]. simpl.
    destruct (Qeq_bool w 0) eqn:E; [|discriminate].
    intros _. apply Qeq_bool_iff in E. apply Qlt_bool_iff in F. lra.
Qed.

(** X11: the confidence is not a number exactly when the date factor is
    enabled, the date tolerance is zero and the two dates are equal: the
    date score is then 1 - 0/0.  In every other case it is a number between
    0 and 1. *)
Theorem confidence_not_a_number_iff (bankTx bookTx : Transaction)
    (settings : Settings) :
  (calculateMatchConfidence bankTx bookTx settings = NaN
   <-> s_matchByDate settings = true
       /\ (s_dateTolerance settings == 0)%Q
       /\ date bankTx = date bookTx)
  /\ (calculateMatchConfidence bankTx bookTx settings = NaN
      \/ exists q, calculateMatchConfidence bankTx bookTx settings = Num q
                   /\ (0 <= q <= 1)%Q).
Proof.
  split.
  - rewrite confidence_nan_iff. apply zeroDivision_iff.
  - destruct (calculateMatchConfidence bankTx bookTx settings) as [q|] eqn:E.
    + right. exists q. split; [reflexivity|].
      eapply calculateMatchConfidence_range, E.
    + left. reflexivity.
Qed.

(** X12: so with the date factor enabled and a zero tolerance the second
    pass never pairs two transactions of the same date, however alike they
    are: every fuzzy pair has two different dates. *)
Theorem zero_tolerance_never_same_date {T : Type} (tx : T -> Transaction)
    (bank book : list T) (settings : Settings) :
  s_matchByDate settings = true ->
  (s_dateTolerance settings == 0)%Q ->
  exists r,
    matchTransactions tx bank book settings = Some r
    /\ Forall (fun m => matchMethod m = fuzzy ->
                        date (tx (bankTransaction m))
                        <> date (tx (bookTransaction m)))
              (o_matched r).
Proof.
  intros Hdate Hzero.
  destruct (matchTransactions_blocks tx bank book settings)
    as (r & exacts & fuzzies & Hrun & Hsplit & Hex & Hfz & _).
  exists r. split; [assumption|]. rewrite Hsplit. apply Forall_app. split.
  - eapply Forall_impl; [exact Hex|]. intros m (Hm & _) Hf. congruence.
  - eapply Forall_impl; [exact Hfz|]. intros m (_ & Hc & Hge) _ Hsame.
    assert (calculateMatchConfidence (tx (bankTransaction m))
              (tx (bookTransaction m)) settings = NaN) as Hnan.
    { apply confidence_nan_iff, zeroDivision_iff. auto. }
    rewrite Hc, Hnan in Hge. discriminate Hge.
Qed.

Lemma zero_tolerance_never_same_date_witness :
  exists r,
    matchTransactions (fun t => t) [twin_b1] [twin_k1] zeroToleranceSettings
    = Some r
    /\ Forall (fun m => matchMethod m = fuzzy ->
                        date (bankTransaction m) <> date (bookTransaction m))
              (o_matched r).
Proof.
  apply (zero_tolerance_never_same_date (fun t => t) [twin_b1] [twin_k1]
           zeroToleranceSettings); reflexivity.
Defined.

(** The twins, equal in every field that counts, stay unmatched under a
    zero tolerance. *)
Example zero_tolerance_twins :
  matchTransactions (fun t => t) [twin_b1] [twin_k1] zeroToleranceSettings
  = Some {| o_matched := [];
            o_unmatchedBank := [twin_b1];
            o_unmatchedBook := [twin_k1] |}.
Proof. vm_compute. reflexivity. Qed.

(** ** A pair that agrees on everything *)

Lemma similarity_refl (str : string) : calculateStringSimilarity str str = 1%Q.
Proof. unfold calculateStringSimilarity. rewrite String.eqb_refl. reflexivity. Qed.

Lemma scoreAmount_full lo bankTx bookTx settings acc :
  (amount bankTx == amount bookTx)%Q ->
  fullAcc lo acc ->
  fullAcc (if s_matchByAmount settings then lo + 0.4 else lo)
          (scoreAmount bankTx bookTx settings acc).
Proof.
  intros Heq. destruct acc as [score w]. unfold fullAcc, scoreAmount. simpl.
  intros [Hw (q & -> & Hq)].
  destruct (s_matchByAmount settings); simpl; [|split; [assumption | eauto]].
  apply Qeq_bool_iff in Heq. rewrite Heq. simpl.
  split; [lra|]. eexists. split; [reflexivity | lra].
Qed.

Lemma scoreDate_full lo bankTx bookTx settings acc :
  date bankTx = date bookTx ->
  (s_matchByDate settings = true -> (0 < s_dateTolerance settings)%Q) ->
  fullAcc lo acc ->
  fullAcc (if s_matchByDate settings then lo + 0.3 else lo)
          (scoreDate bankTx bookTx settings acc).
Proof.
  intros Hsame Htol. destruct acc as [score w]. unfold fullAcc, scoreDate. simpl.
  intros [Hw (q & -> & Hq)].
  destruct (s_matchByDate settings); simpl; [|split; [assumption | eauto]].
  specialize (Htol eq_refl).
  apply daysBetween_zero in Hsame.
  assert (Qle_bool (daysBetween bankTx bookTx) (s_dateTolerance settings) = true)
    as -> by (apply Qle_bool_iff; lra).
  assert (Qeq_bool (s_dateTolerance settings) 0 = false) as ->.
  { destruct (Qeq_bool _ 0) eqn:E; [|reflexivity].
    apply Qeq_bool_iff in E. lra. }
  simpl. split; [lra|]. eexists. split; [reflexivity|].
  rewrite Hsame. unfold Qdiv. lra.
Qed.

Lemma scoreDescription_full lo bankTx bookTx settings acc :
  toLowerCase (description bankTx) = toLowerCase (description bookTx) ->
  fullAcc lo acc -> fullAcc lo (scoreDescription bankTx bookTx settings acc).
Proof.
  intros Hsame. destruct acc as [score w]. unfold fullAcc, scoreDescription.
  simpl. intros [Hw (q & -> & Hq)].
  destruct (_ && _); simpl; [|split; [assumption | eauto]].
  rewrite Hsame, similarity_refl.
  split; [lra|]. eexists. split; [reflexivity | lra].
Qed.

Lemma scoreReference_full lo bankTx bookTx settings acc :
  toLowerCase <$> reference bankTx = toLowerCase <$> reference bookTx ->
  fullAcc lo acc -> fullAcc lo (scoreReference bankTx bookTx settings acc).
Proof.
  intros Hsame. destruct acc as [score w]. unfold fullAcc, scoreReference.
  simpl. intros [Hw (q & -> & Hq)].
  destruct (_ && _); simpl; [|split; [assumption | eauto]].
  replace (toLowerCase (default EmptyString (reference bankTx)))
    with (toLowerCase (default EmptyString (reference bookTx))).
  2:{ destruct (reference bankTx), (reference bookTx); simpl in *;
        congruence. }
  rewrite similarity_refl.
  split; [lra|]. eexists. split; [reflexivity | lra].
Qed.

(** X13: a pair that agrees on amount, date, description and reference (the
    last two up to letter case) scores exactly 1, provided the amount or
    the date factor is enabled and the date tolerance, if the date factor
    is enabled, is positive. *)
Theorem agreeing_pair_scores_one (bankTx bookTx : Transaction)
    (settings : Settings) :
  (amount bankTx == amount bookTx)%Q ->
  date bankTx = date bookTx ->
  toLowerCase (description bankTx) = toLowerCase (description bookTx) ->
  toLowerCase <$> reference bankTx = toLowerCase <$> reference bookTx ->
  (s_matchByDate settings = true -> (0 < s_dateTolerance settings)%Q) ->
  s_matchByAmount settings = true \/ s_matchByDate settings = true ->
  exists q, calculateMatchConfidence bankTx bookTx settings = Num q
            /\ (q == 1)%Q.
Proof.
  intros Ha Hd Hdesc Href Htol Hsome. unfold calculateMatchConfidence.
  assert (fullAcc 0 (Num 0, 0%Q)) as H0.
  { split; simpl; [lra|]. exists 0%Q. split; [reflexivity | lra]. }
  apply (scoreAmount_full _ bankTx bookTx settings _ Ha) in H0.
  apply (scoreDate_full _ bankTx bookTx settings _ Hd Htol) in H0.
  apply (scoreDescription_full _ bankTx bookTx settings _ Hdesc) in H0.
  apply (scoreReference_full _ bankTx bookTx settings _ Href) in H0.
  destruct (scoreReference _ _ _ _) as [score w].
  destruct H0 as [Hw (q & Hscore & Hq)]. simpl in *. subst score.
  assert (0 < w)%Q as Hpos.
  { destruct Hsome as [E | E]; rewrite E in Hw;
      destruct (s_matchByAmount settings), (s_matchByDate settings); lra. }
  assert (Qlt_bool 0 w = true) as -> by (apply Qlt_bool_iff; assumption).
  simpl.
  assert (Qeq_bool w 0 = false) as ->.
  { destruct (Qeq_bool w 0) eqn:E; [|reflexivity].
    apply Qeq_bool_iff in E. lra. }
  eexists. split; [reflexivity|]. rewrite Hq. field. lra.
Qed.

Lemma agreeing_pair_scores_one_witness :
  exists q, calculateMatchConfidence twin_b1 twin_k1 defaultSettings = Num q
            /\ (q == 1)%Q.
Proof.
  apply (agreeing_pair_scores_one twin_b1 twin_k1 defaultSettings);
    [reflexivity | reflexivity | reflexivity | reflexivity
    | intros _; reflexivity | left; reflexivity].
Defined.

(** ** Letter case *)

Lemma toLowerCaseChar_idem (c : ascii) :
  toLowerCaseChar (toLowerCaseChar c) = toLowerCaseChar c.
Proof.
  destruct c as [[] [] [] [] [] [] [] []]; vm_compute; reflexivity.
Qed.

Lemma toLowerCase_idem (s : string) : toLowerCase (toLowerCase s) = toLowerCase s.
Proof.
  induction s as [|c s IH]; simpl; [reflexivity|].
  rewrite toLowerCaseChar_idem, IH. reflexivity.
Qed.

Lemma truthy_toLowerCase (s : string) : truthy (toLowerCase s) = truthy s.
Proof. destruct s; reflexivity. Qed.

Lemma truthyOpt_toLowerCase (o : option string) :
  truthyOpt (toLowerCase <$> o) = truthyOpt o.
Proof. destruct o; simpl; [apply truthy_toLowerCase | reflexivity]. Qed.

Lemma toLowerCase_default (o : option string) :
  toLowerCase (default EmptyString (toLowerCase <$> o))
  = toLowerCase (default EmptyString o).
Proof. destruct o; simpl; [apply toLowerCase_idem | reflexivity]. Qed.

(** A confidence depends on the descriptions and references only through
    their lower-case forms. *)
Lemma confidence_lowered (b b' k k' : Transaction) (settings : Settings) :
  amount b = amount b' -> date b = date b' ->
  toLowerCase (description b) = toLowerCase (description b') ->
  toLowerCase <$> reference b = toLowerCase <$> reference b' ->
  amount k = amount k' -> date k = date k' ->
  toLowerCase (description k) = toLowerCase (description k') ->
  toLowerCase <$> reference k = toLowerCase <$> reference k' ->
  calculateMatchConfidence b k settings = calculateMatchConfidence b' k' settings.
Proof.
  intros Hab Hdb Hsb Hrb Hak Hdk Hsk Hrk.
  assert (forall t t', toLowerCase (description t) = toLowerCase (description t') ->
                       truthy (description t) = truthy (description t')) as Htr.
  { intros t t' E. rewrite <- (truthy_toLowerCase (description t)), E.
    apply truthy_toLowerCase. }
  assert (forall t t',
            toLowerCase <$> reference t = toLowerCase <$> reference t' ->
            truthyOpt (reference t) = truthyOpt (reference t')
            /\ toLowerCase (default EmptyString (reference t))
               = toLowerCase (default EmptyString (reference t'))) as Hro.
  { intros t t' E. split.
    - rewrite <- (truthyOpt_toLowerCase (reference t)), E.
      apply truthyOpt_toLowerCase.
    - rewrite <- (toLowerCase_default (reference t)), E.
      apply toLowerCase_default. }
  unfold calculateMatchConfidence, scoreAmount, scoreDate, scoreDescription,
    scoreReference, daysBetween.
  rewrite Hab, Hak, Hdb, Hdk, Hsb, Hsk.
  rewrite (Htr b b' Hsb), (Htr k k' Hsk).
  destruct (Hro b b' Hrb) as [-> ->]. destruct (Hro k k' Hrk) as [-> ->].
  reflexivity.
Qed.

(** X14: the confidence ignores letter case: putting the description and
    the reference of either transaction into lower case leaves it
    unchanged. *)
Theorem confidence_ignores_case (bankTx bookTx : Transaction)
    (settings : Settings) :
  calculateMatchConfidence (lowered bankTx) bookTx settings
  = calculateMatchConfidence bankTx bookTx settings
  /\ calculateMatchConfidence bankTx (lowered bookTx) settings
     = calculateMatchConfidence bankTx bookTx settings.
Proof.
  split; apply confidence_lowered; try reflexivity; simpl;
    solve [ apply toLowerCase_idem
          | destruct (reference bankTx); simpl; [rewrite toLowerCase_idem|];
            reflexivity
          | destruct (reference bookTx); simpl; [rewrite toLowerCase_idem|];
            reflexivity ].
Qed.

(** ** The scorer and the percentage *)

(** X15: the similarity of any two strings lies between 0 and 1, is 1 for
    equal strings and is 0.8 for two different strings one of which
    contains the other. *)
Theorem similarity_range (str1 str2 : string) :
  (0 <= calculateStringSimilarity str1 str2 <= 1)%Q
  /\ (str1 = str2 -> calculateStringSimilarity str1 str2 = 1%Q)
  /\ (str1 <> str2 -> includes str1 str2 || includes str2 str1 = true ->
      calculateStringSimilarity str1 str2 = 0.8%Q).
Proof.
  split; [apply calculateStringSimilarity_range|]. split.
  - intros ->. apply similarity_refl.
  - intros Hne Hinc. unfold calculateStringSimilarity.
    apply String.eqb_neq in Hne. rewrite Hne, Hinc. reflexivity.
Qed.

(** X16: the match percentage lies between 0 and 100, and it is 100
    exactly when nothing is left unmatched on either side (two empty
    unmatched lists, whether or not anything was matched). *)
Theorem matchPercentage_range {T : Type} (tx : T -> Transaction)
    (account : AccountInfo) (matched : list (MatchedTransaction T))
    (unmatchedBank unmatchedBook : list T) :
  let r := calculateReconciliationSummary tx account matched
             unmatchedBank unmatchedBook in
  (0 <= matchPercentage r <= 100)%Q
  /\ ((matchPercentage r == 100)%Q
      <-> unmatchedBank = [] /\ unmatchedBook = []).
Proof.
  intros r. subst r. unfold calculateReconciliationSummary.
  cbn [matchPercentage].
  set (m := length matched). set (u := length unmatchedBank).
  set (k := length unmatchedBook).
  assert (unmatchedBank = [] /\ unmatchedBook = [] <-> (u + k = 0)%nat) as ->.
  { subst u k. split.
    - intros [-> ->]. reflexivity.
    - intros H. split; apply length_zero_iff_nil; lia. }
  destruct (0 <? m + u + k)%nat eqn:Hpos.
  - apply Nat.ltb_lt in Hpos.
    set (t := (m + u + k)%nat) in *.
    assert (0 < inject_Z (Z.of_nat t))%Q as Ht.
    { change 0%Q with (inject_Z 0). rewrite <- Zlt_Qlt. lia. }
    assert (0 <= inject_Z (Z.of_nat m))%Q as Hm.
    { change 0%Q with (inject_Z 0). rewrite <- Zle_Qle. lia. }
    assert (inject_Z (Z.of_nat m) <= inject_Z (Z.of_nat t))%Q as Hmt.
    { rewrite <- Zle_Qle. lia. }
    set (x := (inject_Z (Z.of_nat m) / inject_Z (Z.of_nat t))%Q).
    assert (0 <= x <= 1)%Q as Hx.
    { subst x. split.
      - apply Qle_shift_div_l; [assumption | lra].
      - apply Qle_shift_div_r; [assumption | lra]. }
    split; [lra|]. split.
    + intros H. assert (x == 1)%Q as Hx1 by lra.
      assert (inject_Z (Z.of_nat m) == inject_Z (Z.of_nat t))%Q as E.
      { rewrite <- (Qmult_div_r (inject_Z (Z.of_nat m)) (inject_Z (Z.of_nat t)))
          by lra.
        fold x. rewrite Hx1. ring. }
      unfold Qeq in E. simpl in E. subst t. lia.
    + intros H. assert (t = m) as E by (subst t; lia).
      subst x. rewrite E. rewrite E in Ht.
      set (y := inject_Z (Z.of_nat m)) in *. field. lra.
  - apply Nat.ltb_ge in Hpos. split; [lra|]. split; [intros _; lia | reflexivity].
Qed.

(** * Validators *)

Lemma pushIf_nil (cond : bool) (message : string) (errors : list string) :
  pushIf cond message errors = [] <-> cond = false /\ errors = [].
Proof.
  unfold pushIf. destruct cond.
  - split; [intros H; apply app_eq_nil in H as [_ H]; discriminate H
           | intros [H _]; discriminate H].
  - tauto.
Qed.

Lemma push_not_nil (message : string) (errors : list string) :
  errors ++ [message] <> [].
Proof. intros H. apply app_eq_nil in H as [_ H]. discriminate H. Qed.

Lemma finish_valid (errs : list string) :
  valid (finish errs) = true <-> errs = [].
Proof.
  unfold finish. simpl. rewrite Nat.eqb_eq. apply length_zero_iff_nil.
Qed.

Lemma optStringEq_Some (o : option string) (s : string) :
  optStringEq o (Some s) = true <-> o = Some s.
Proof.
  destruct o as [x|]; simpl.
  - rewrite String.eqb_eq. split; congruence.
  - split; discriminate.
Qed.

Lemma negb_is_Some {A : Type} (o : option A) :
  negb (bool_decide (is_Some o)) = false <-> is_Some o.
Proof.
  rewrite negb_false_iff, bool_decide_eq_true. reflexivity.
Qed.

Lemma validateTransaction_spec (transaction : TransactionInput) :
  (valid (validateTransaction transaction) = true
   <-> truthyOpt (in_id transaction) = true
       /\ is_Some (in_date transaction)
       /\ truthyOpt (in_description transaction) = true
       /\ is_Some (in_amount transaction)
       /\ (in_type transaction = Some "debit"
           \/ in_type transaction = Some "credit"))
  /\ (valid (validateTransaction transaction) = true
      <-> errors (validateTransaction transaction) = [])
  /\ (length (errors (validateTransaction transaction)) <= 5)%nat.
Proof.
  unfold validateTransaction.
  set (e4 := pushIf _ "Transaction amount is required" _).
  assert (e4 = [] <-> truthyOpt (in_id transaction) = true
                      /\ is_Some (in_date transaction)
                      /\ truthyOpt (in_description transaction) = true
                      /\ is_Some (in_amount transaction)) as H4.
  { subst e4. rewrite !pushIf_nil, !negb_is_Some, !negb_false_iff. tauto. }
  assert (length e4 <= 4)%nat as Hlen.
  { subst e4. unfold pushIf.
    repeat match goal with |- context [if ?c then _ else _] => destruct c end;
      rewrite ?length_app; simpl; lia. }
  rewrite !finish_valid.
  split; [|split; [reflexivity|]].
  - destruct (truthyOpt (in_type transaction)) eqn:Hty; simpl.
    + destruct (optStringEq (in_type transaction) (Some "debit")) eqn:Hd; simpl.
      * apply optStringEq_Some in Hd. rewrite H4. tauto.
      * destruct (optStringEq (in_type transaction) (Some "credit")) eqn:Hc; simpl.
        -- apply optStringEq_Some in Hc. rewrite H4. tauto.
        -- split.
           ++ intros H. exfalso. eapply push_not_nil, H.
           ++ intros (_ & _ & _ & _ & [E | E]); apply optStringEq_Some in E;
                congruence.
    + split.
      * intros H. exfalso. eapply push_not_nil, H.
      * intros (_ & _ & _ & _ & [E | E]); rewrite E in Hty; discriminate Hty.
  - unfold finish. cbn [errors].
    repeat match goal with |- context [if ?c then _ else _] => destruct c end;
      rewrite ?length_app; simpl; lia.
Qed.

(** X17: [validateTransaction] accepts a record exactly when its id and
    description are non-empty strings, its date and amount are present (an
    amount of 0 included) and its type is [debit] or [credit]; it reports
    no error exactly when it accepts, and at most five errors. *)
Theorem validateTransaction_accepts (transaction : TransactionInput) :
  (valid (validateTransaction transaction) = true
   <-> truthyOpt (in_id transaction) = true
       /\ is_Some (in_date transaction)
       /\ truthyOpt (in_description transaction) = true
       /\ is_Some (in_amount transaction)
       /\ (in_type transaction = Some "debit"
           \/ in_type transaction = Some "credit"))
  /\ (valid (validateTransaction transaction) = true
      <-> errors (validateTransaction transaction) = [])
  /\ (length (errors (validateTransaction transaction)) <= 5)%nat.
Proof. apply validateTransaction_spec. Qed.

(** X18: a transaction of the declared type passes [validateTransaction]
    exactly when its id and its description are non-empty; its amount, date
    and type never cause an error. *)
Theorem validateTransaction_typed (t : Transaction) :
  valid (validateTransaction (inputOfTransaction t)) = true
  <-> id t <> EmptyString /\ description t <> EmptyString.
Proof.
  destruct (validateTransaction_spec (inputOfTransaction t)) as [-> _].
  simpl. unfold truthy. rewrite !negb_true_iff, !String.eqb_neq.
  split.
  - tauto.
  - intros [Hi Hd]. repeat split; try assumption; try (eexists; reflexivity).
    destruct (type t); [left | right]; reflexivity.
Qed.

Lemma validateAccount_nil (account : option AccountInput) (errs : list string) :
  validateAccount account errs = []
  <-> errs = []
      /\ exists a, account = Some a
                   /\ truthyOpt (in_name a) = true
                   /\ truthyOpt (in_number a) = true
                   /\ truthyOpt (in_currency a) = true.
Proof.
  unfold validateAccount. destruct account as [a|].
  - rewrite !pushIf_nil, !negb_false_iff. split.
    + intros (Hc & Hn & Hm & He). split; [assumption|]. exists a. auto.
    + intros (He & a' & [= <-] & Hm & Hn & Hc). auto.
  - split.
    + intros H. exfalso. eapply push_not_nil, H.
    + intros (_ & a & Ha & _). discriminate Ha.
Qed.

Lemma validatePeriod_nil (period : option PeriodInput) (errs : list string) :
  validatePeriod period errs = []
  <-> errs = []
      /\ exists p startDate endDate,
           period = Some p
           /\ in_startDate p = Some startDate
           /\ in_endDate p = Some endDate
           /\ (startDate <= endDate)%Z.
Proof.
  unfold validatePeriod. destruct period as [p|].
  2:{ split.
      - intros H. exfalso. eapply push_not_nil, H.
      - intros (_ & p & s & e & Hp & _). discriminate Hp. }
  set (e2 := pushIf _ "End date is required" _).
  assert (e2 = [] <-> is_Some (in_startDate p) /\ is_Some (in_endDate p)
                      /\ errs = []) as H2.
  { subst e2. rewrite !pushIf_nil, !negb_is_Some. tauto. }
  destruct (in_startDate p) as [s|] eqn:Hs, (in_endDate p) as [e|] eqn:He.
  - rewrite pushIf_nil, H2, Z.ltb_ge. split.
    + intros (Hle & _ & _ & Herr). split; [assumption|]. exists p, s, e. auto.
    + intros (Herr & p' & s' & e' & [= <-] & Hs' & He' & Hle).
      rewrite Hs in Hs'. rewrite He in He'.
      injection Hs' as <-. injection He' as <-. repeat split; eauto.
  - rewrite H2. split.
    + intros (_ & [x Hx] & _). discriminate Hx.
    + intros (_ & p' & s' & e' & [= <-] & _ & He' & _).
      rewrite He in He'. discriminate He'.
  - rewrite H2. split.
    + intros ([x Hx] & _). discriminate Hx.
    + intros (_ & p' & s' & e' & [= <-] & Hs' & _).
      rewrite Hs in Hs'. discriminate Hs'.
  - rewrite H2. split.
    + intros ([x Hx] & _). discriminate Hx.
    + intros (_ & p' & s' & e' & [= <-] & Hs' & _).
      rewrite Hs in Hs'. discriminate Hs'.
Qed.

Lemma validateList_nil {T : Type} (transactions : option (list T))
    (notArray empty : string) (errs : list string) :
  validateList transactions notArray empty errs = []
  <-> errs = [] /\ exists l, transactions = Some l /\ l <> [].
Proof.
  unfold validateList. destruct transactions as [l|].
  - rewrite pushIf_nil, Nat.eqb_neq, length_zero_iff_nil. split.
    + intros [Hl He]. split; [assumption|]. exists l. auto.
    + intros (He & l' & [= <-] & Hl). auto.
  - split.
    + intros H. exfalso. eapply push_not_nil, H.
    + intros (_ & l & Hl & _). discriminate Hl.
Qed.

(** X19: [validateReconciliationData] accepts exactly when the account is
    present with a non-empty name, number and currency, the period is
    present with both dates and an end date not before the start date
    (equal dates pass), and both transaction lists are arrays with at least
    one element; it does not look into the transactions. *)
Theorem validateReconciliationData_accepts {T : Type} (data : DataInput T) :
  valid (validateReconciliationData data) = true
  <-> (exists a, in_account data = Some a
                 /\ truthyOpt (in_name a) = true
                 /\ truthyOpt (in_number a) = true
                 /\ truthyOpt (in_currency a) = true)
      /\ (exists p startDate endDate,
            in_period data = Some p
            /\ in_startDate p = Some startDate
            /\ in_endDate p = Some endDate
            /\ (startDate <= endDate)%Z)
      /\ (exists l, in_bankTransactions data = Some l /\ l <> [])
      /\ (exists l, in_bookTransactions data = Some l /\ l <> []).
Proof.
  unfold validateReconciliationData.
  rewrite finish_valid, validateList_nil, validateList_nil, validatePeriod_nil,
    validateAccount_nil.
  tauto.
Qed.

(** * Detailed report *)

Lemma countCategory_other (counts : gmap string CountValue) (c c' : string) :
  c <> c' -> countCategory counts c' !! c = counts !! c.
Proof.
  intros Hne. unfold countCategory.
  destruct (String.eqb c' "__proto__"); [reflexivity|].
  destruct (counts !! c') as [[n|]|]; [| |destruct (existsb _ _)];
    apply lookup_insert_ne; congruence.
Qed.

Lemma countCategory_same (counts : gmap string CountValue) (c : string) :
  existsb (String.eqb c) inheritedNames = false ->
  counts !! c = None \/ (exists n, counts !! c = Some (Count n)) ->
  countCategory counts c !! c = Some (Count (countOf (counts !! c) + 1)).
Proof.
  intros Hord Hc. unfold countCategory.
  assert (String.eqb c "__proto__" = false) as ->.
  { destruct (String.eqb c "__proto__") eqn:E; [|reflexivity].
    apply String.eqb_eq in E. subst c. vm_compute in Hord. discriminate Hord. }
  rewrite Hord. destruct Hc as [-> | [n ->]]; simpl; apply lookup_insert_eq.
Qed.

Lemma fold_countCategory {A : Type} (cat : A -> string) (l : list A)
    (counts : gmap string CountValue) (c : string) :
  existsb (String.eqb c) inheritedNames = false ->
  counts !! c = None \/ (exists n, counts !! c = Some (Count n)) ->
  let k := countIf (fun x => String.eqb (cat x) c) l in
  fold_left (fun counts x => countCategory counts (cat x)) l counts !! c
  = if (k =? 0)%nat then counts !! c
    else Some (Count (countOf (counts !! c) + k)).
Proof.
  intros Hord. revert counts. unfold countIf.
  induction l as [|x l IH]; intros counts Hc; simpl; [reflexivity|].
  destruct (String.eqb (cat x) c) eqn:E.
  - apply String.eqb_eq in E. rewrite E. simpl.
    pose proof (countCategory_same counts c Hord Hc) as Hsame.
    rewrite IH by (right; eauto). rewrite Hsame. simpl.
    destruct (length (List.filter _ l)); simpl; f_equal; f_equal; lia.
  - apply String.eqb_neq in E.
    rewrite IH by (rewrite countCategory_other by congruence; assumption).
    rewrite countCategory_other by congruence. reflexivity.
Qed.

Lemma countIf_app {A : Type} (p : A -> bool) (l1 l2 : list A) :
  countIf p (l1 ++ l2) = (countIf p l1 + countIf p l2)%nat.
Proof. unfold countIf. rewrite List.filter_app, length_app. reflexivity. Qed.

(** X20: in the detailed report the entry of a category (other than the
    names every object inherits) is the number of matched pairs whose bank
    transaction is in that category, respectively the number of unmatched
    bank and book transactions in it, and is absent when that number is 0;
    a transaction with no category or an empty one counts under
    [Uncategorized].  The summary is that of the summary calculator and the
    account is passed through. *)
Theorem detailed_report_counts {T : Type} (tx : T -> Transaction)
    (account : AccountInfo) (matched : list (MatchedTransaction T))
    (unmatchedBank unmatchedBook : list T) (c : string) :
  existsb (String.eqb c) inheritedNames = false ->
  let report :=
    generateDetailedReconciliationReport tx account matched unmatchedBank
                                         unmatchedBook in
  let inCategory := fun t => String.eqb (categoryOf (tx t)) c in
  let km := countIf (fun m => inCategory (bankTransaction m)) matched in
  let ku := (countIf inCategory unmatchedBank
             + countIf inCategory unmatchedBook)%nat in
  dr_matchedCategories report !! c
  = (if (km =? 0)%nat then None else Some (Count km))
  /\ dr_unmatchedCategories report !! c
     = (if (ku =? 0)%nat then None else Some (Count ku))
  /\ dr_summary report
     = calculateReconciliationSummary tx account matched unmatchedBank
                                      unmatchedBook
  /\ dr_accountInfo report = account.
Proof.
  intros Hord report inCategory km ku. subst report.
  unfold generateDetailedReconciliationReport.
  cbn [dr_matchedCategories dr_unmatchedCategories dr_summary dr_accountInfo].
  split; [|split; [|split; reflexivity]].
  - rewrite (fold_countCategory
               (fun m => categoryOf (tx (bankTransaction m))) matched ∅ c Hord)
      by (left; apply lookup_empty).
    fold km. rewrite lookup_empty. reflexivity.
  - rewrite <- fold_left_app.
    rewrite (fold_countCategory (fun t => categoryOf (tx t))
               (unmatchedBank ++ unmatchedBook) ∅ c Hord)
      by (left; apply lookup_empty).
    rewrite countIf_app. fold inCategory. fold ku.
    rewrite lookup_empty. reflexivity.
Qed.

Lemma detailed_report_counts_witness :
  dr_matchedCategories
    (generateDetailedReconciliationReport (fun t => t) scenario_account
       [ {| bankTransaction := twin_b2; bookTransaction := twin_k1;
            confidence := Num 1; matchMethod := exact |} ]
       [twin_travel; twin_b1] [scenario_k1]) !! "Uncategorized"
  = Some (Count 1)
  /\ dr_unmatchedCategories
       (generateDetailedReconciliationReport (fun t => t) scenario_account
          [ {| bankTransaction := twin_b2; bookTransaction := twin_k1;
               confidence := Num 1; matchMethod := exact |} ]
          [twin_travel; twin_b1] [scenario_k1]) !! "Uncategorized"
     = Some (Count 2).
Proof.
  pose proof (detailed_report_counts (fun t => t) scenario_account
                [ {| bankTransaction := twin_b2; bookTransaction := twin_k1;
                     confidence := Num 1; matchMethod := exact |} ]
                [twin_travel; twin_b1] [scenario_k1] "Uncategorized" eq_refl)
    as (Hm & Hu & _).
  split; [exact Hm | exact Hu].
Defined.

Lemma countCategory_inherited (counts : gmap string CountValue) (c : string) :
  existsb (String.eqb c) inheritedNames = true ->
  String.eqb c "__proto__" = false ->
  counts !! c = None \/ counts !! c = Some NotANumber ->
  countCategory counts c !! c = Some NotANumber.
Proof.
  intros Hinh Hproto Hc. unfold countCategory. rewrite Hproto, Hinh.
  destruct Hc as [-> | ->]; apply lookup_insert_eq.
Qed.

Lemma fold_countCategory_inherited {A : Type} (cat : A -> string) (l : list A)
    (counts : gmap string CountValue) (c : string) :
  existsb (String.eqb c) inheritedNames = true ->
  String.eqb c "__proto__" = false ->
  counts !! c = None \/ counts !! c = Some NotANumber ->
  fold_left (fun counts x => countCategory counts (cat x)) l counts !! c
  = if (countIf (fun x => String.eqb (cat x) c) l =? 0)%nat then counts !! c
    else Some NotANumber.
Proof.
  intros Hinh Hproto. revert counts. unfold countIf.
  induction l as [|x l IH]; intros counts Hc; simpl; [reflexivity|].
  destruct (String.eqb (cat x) c) eqn:E.
  - apply String.eqb_eq in E. rewrite E. simpl.
    pose proof (countCategory_inherited counts c Hinh Hproto Hc) as Hsame.
    rewrite IH by (right; assumption). rewrite Hsame.
    destruct (length (List.filter _ l)); reflexivity.
  - apply String.eqb_neq in E.
    rewrite IH by (rewrite countCategory_other by congruence; assumption).
    rewrite countCategory_other by congruence. reflexivity.
Qed.

Lemma fold_countCategory_proto {A : Type} (cat : A -> string) (l : list A)
    (counts : gmap string CountValue) :
  fold_left (fun counts x => countCategory counts (cat x)) l counts !! "__proto__"
  = counts !! "__proto__".
Proof.
  revert counts. induction l as [|x l IH]; intros counts; simpl; [reflexivity|].
  rewrite IH. destruct (String.eqb (cat x) "__proto__") eqn:E.
  - unfold countCategory. rewrite E. reflexivity.
  - apply String.eqb_neq in E. apply countCategory_other. congruence.
Qed.

(** X21: a category named like a property that every object inherits
    ([constructor], [toString], [valueOf], ...) does not get a count: once
    a matched pair is in it, its entry is not a number; and a category
    named [__proto__] never gets an entry at all. *)
Theorem detailed_report_inherited_names {T : Type} (tx : T -> Transaction)
    (account : AccountInfo) (matched : list (MatchedTransaction T))
    (unmatchedBank unmatchedBook : list T) (c : string) :
  c ∈ inheritedNames ->
  let report :=
    generateDetailedReconciliationReport tx account matched unmatchedBank
                                         unmatchedBook in
  let km :=
    countIf (fun m => String.eqb (categoryOf (tx (bankTransaction m))) c)
            matched in
  dr_matchedCategories report !! "__proto__" = None
  /\ dr_unmatchedCategories report !! "__proto__" = None
  /\ (c <> "__proto__" -> km <> 0%nat ->
      dr_matchedCategories report !! c = Some NotANumber).
Proof.
  intros Hin report km. subst report.
  unfold generateDetailedReconciliationReport.
  cbn [dr_matchedCategories dr_unmatchedCategories].
  split; [|split].
  - rewrite fold_countCategory_proto. apply lookup_empty.
  - rewrite !fold_countCategory_proto. apply lookup_empty.
  - intros Hne Hkm.
    rewrite (fold_countCategory_inherited
               (fun m => categoryOf (tx (bankTransaction m))) matched ∅ c).
    + fold km. apply Nat.eqb_neq in Hkm. rewrite Hkm. reflexivity.
    + apply existsb_exists. exists c. split.
      * apply list_elem_of_In, Hin.
      * apply String.eqb_refl.
    + apply String.eqb_neq, Hne.
    + left. apply lookup_empty.
Qed.

Lemma detailed_report_inherited_names_witness :
  dr_matchedCategories
    (generateDetailedReconciliationReport (fun t => t) scenario_account
       [ {| bankTransaction :=
              {| id := "b4"; date := 0; description := "x"; amount := 1%Q;
                 type := debit; category := Some "constructor";
                 reference := None; matched_flag := None; matchId := None;
                 metadata := None |};
            bookTransaction := twin_k1;
            confidence := Num 1; matchMethod := exact |} ]
       [] []) !! "constructor"
  = Some NotANumber.
Proof.
  pose proof (detailed_report_inherited_names (fun t => t) scenario_account
       [ {| bankTransaction :=
              {| id := "b4"; date := 0; description := "x"; amount := 1%Q;
                 type := debit; category := Some "constructor";
                 reference := None; matched_flag := None; matchId := None;
                 metadata := None |};
            bookTransaction := twin_k1;
            confidence := Num 1; matchMethod := exact |} ]
       [] [] "constructor") as H.
  destruct H as (_ & _ & H).
  - apply list_elem_of_here.
  - apply H; [discriminate | vm_compute; discriminate].
Defined.

(** * Metrics table *)


(** * Instances of the properties with a precondition *)

Lemma fuzzy_leftovers_below_threshold_witness :
  exists r,
    matchTransactions (fun t => t) [scenario_b1; twin_b1] [scenario_k1; twin_late]
                      defaultSettings = Some r
    /\ forall b k, b ∈ o_unmatchedBank r -> k ∈ o_unmatchedBook r ->
         num_ge (calculateMatchConfidence b k defaultSettings)
                (Num (s_fuzzyThreshold defaultSettings)) = false.
Proof.
  apply (fuzzy_leftovers_below_threshold (fun t => t) [scenario_b1; twin_b1]
           [scenario_k1; twin_late] defaultSettings).
  reflexivity.
Defined.

Lemma exact_leftovers_differ_witness :
  exists r,
    matchTransactions (fun t => t) [twin_b1; twin_b2] [twin_k1] defaultSettings
    = Some r
    /\ forall b k, b ∈ o_unmatchedBank r -> k ∈ o_unmatchedBook r ->
         exactKey k b = false.
Proof.
  apply (exact_leftovers_differ (fun t => t) [twin_b1; twin_b2] [twin_k1]
           defaultSettings).
  reflexivity.
Defined.
